(** * LIDAR-Lite v2 driver (package lidar, lidar.go): embedding and properties

    The driver talks to the sensor through the [i2c.Bus] interface and the
    wall clock of package [time].  Both are external, so the embedding is
    parametric in a world [W] that answers register transfers and clock
    readings.  Every driver operation is a state-passing computation over
    that world; a ghost log records, in program order, each bus transfer and
    each sleep together with the answer the world gave.  The two polling
    loops ([waitReadyStatus], [GetDistance]) are driven by fuel. *)

From Stdlib Require Import ZArith List String Bool Lia.
Import ListNotations.
Local Open Scope string_scope.
Local Open Scope list_scope.
Local Open Scope Z_scope.

(** ** Go integer types *)

Module GoInt.

(** [byte(x)], [uint16(x)]: conversion to an unsigned type. *)
Definition byte (x : Z) : Z := x mod 256.
Definition uint16 (x : Z) : Z := x mod 65536.

(** [int8(x)], [int16(x)], [int64(x)]: two's complement wrap-around. *)
Definition int8 (x : Z) : Z := (x + 128) mod 256 - 128.
Definition int16 (x : Z) : Z := (x + 32768) mod 65536 - 32768.
Definition int64 (x : Z) : Z :=
  (x + 9223372036854775808) mod 18446744073709551616 - 9223372036854775808.

Definition maxDuration : Z := 9223372036854775807.
Definition minDuration : Z := - 9223372036854775808.

(** [Time.Sub] saturates instead of wrapping. *)
Definition saturate (x : Z) : Z := Z.max minDuration (Z.min maxDuration x).

End GoInt.
Import GoInt.

(** ** Errors

    Go's [error] values as the driver produces and inspects them.  The bus
    belongs to another package; what it returns is kept apart from the
    errors this package builds, as the type assertion in [ReadDistance]
    and [ReadVelocity] tells them apart. *)

Inductive error : Type :=
| BusError (e : string)          (* whatever i2c.Bus returned *)
| errorString (s : string)       (* errors.New(s) *)
| IntervalError (interval : Z)   (* fmt.Errorf("Specified measurement interval %v is not achievable", interval) *)
| HealthError (healthFlags : Z). (* &HealthError{healthFlags: healthFlags} *)

Definition is_nil (e : option error) : bool :=
  match e with None => true | Some _ => false end.

(** [_, ok := err.( *HealthError)] *)
Definition isHealthError (e : error) : bool :=
  match e with HealthError _ => true | _ => false end.

(** HealthError GetHealthFlags() bit fields *)
Definition UnhealthyReference : Z := Z.shiftl 1 1.
Definition UnhealthyTransmitPower : Z := Z.shiftl 1 2.
Definition UnhealthyDC : Z := Z.shiftl 1 3.

Definition GetHealthFlags (healthFlags : Z) : Z := healthFlags.

Definition HealthError_Error (healthFlags : Z) : string :=
  if negb (Z.land healthFlags UnhealthyReference =? 0) then
    "LIDAR unhealthy: reference signal failure"
  else if negb (Z.land healthFlags UnhealthyTransmitPower =? 0) then
    "LIDAR unhealthy: transmit power failure"
  else if negb (Z.land healthFlags UnhealthyDC =? 0) then
    "LIDAR unhealthy: DC (preamplifier) failure"
  else "LIDAR unhealthy, measurement result may be inaccurate".

(** ** Constants *)

Definition Millisecond : Z := 1000000.
Definition Second : Z := 1000 * Millisecond.

Definition DefaultAddress : Z := 0x62.

Definition customAcquisitionInterval : Z := Z.shiftl 1 5.
Definition velocityModeEnabled : Z := Z.shiftl 1 7.
Definition modeControlRegister : Z := 0x04.
Definition defaultIntervalValue : Z := 0xc8.
Definition minIntervalValue : Z := 0x02.
Definition maxIntervalValue : Z := 0xff.

(** [(v >> 1) * time.Millisecond], the expression behind the three exported
    interval constants. *)
Definition intervalOfValue (v : Z) : Z := Z.shiftr v 1 * Millisecond.

Definition DefaultAcquisitionInterval : Z := intervalOfValue defaultIntervalValue.
Definition MinAcquisitionInterval : Z := intervalOfValue minIntervalValue.
Definition MaxAcquisitionInterval : Z := intervalOfValue maxIntervalValue.

(** [translatedInterval := interval.Nanoseconds() * 2 / 1000000], in int64:
    the product wraps and the division truncates towards zero. *)
Definition translatedInterval (interval : Z) : Z :=
  Z.quot (int64 (interval * 2)) 1000000.

Definition InfiniteAcquisitions : Z := 0xff.

(** GetStatus() bits, [1 << iota] *)
Definition Busy : Z := Z.shiftl 1 0.
Definition ReferenceOverflow : Z := Z.shiftl 1 1.
Definition SignalOverflow : Z := Z.shiftl 1 2.
Definition SignalNotDetected : Z := Z.shiftl 1 3.
Definition SecondReturn : Z := Z.shiftl 1 4.
Definition Healthy : Z := Z.shiftl 1 5.
Definition ErrorDetected : Z := Z.shiftl 1 6.
Definition EyeSafetyActivated : Z := Z.shiftl 1 7.

(** ** The world: bus and clock *)

(** [i2c.Bus] restricted to the three methods the driver calls, and the
    clock.  A transfer answers with a value and possibly an error, as the Go
    methods do, and moves the world on; [now] is the monotonic clock reading
    in nanoseconds and [sleep] is [time.Sleep]. *)
Class World (W : Type) : Type := {
  ReadByteFromReg : Z -> Z -> W -> (Z * option string) * W;
  ReadWordFromReg : Z -> Z -> W -> (Z * option string) * W;
  WriteByteToReg : Z -> Z -> Z -> W -> option string * W;
  now : W -> Z;
  sleep : Z -> W -> W
}.

(** What the ghost log records. *)
Inductive Event : Type :=
| EvReadByte (addr reg value : Z) (err : option error)
| EvReadWord (addr reg value : Z) (err : option error)
| EvWriteByte (addr reg value : Z) (err : option error)
| EvSleep (d : Z).

Definition is_write (ev : Event) : bool :=
  match ev with EvWriteByte _ _ _ _ => true | _ => false end.

Definition writes (l : list Event) : list Event := filter is_write l.

(** type Lidar struct: the [bus] field is the world itself. *)
Record Lidar : Type := {
  address : Z;
  WaitTimeout : Z
}.

Definition NewLidar (addr : Z) : Lidar :=
  {| address := addr; WaitTimeout := 2 * Second |}.

Section Driver.

Context {W : Type} `{World W}.

Record St : Type := { world : W; log : list Event }.

(** State passing; [None] only when a loop ran out of fuel. *)
Definition M (A : Type) : Type := St -> option (A * St).

Definition ret {A} (a : A) : M A := fun st => Some (a, st).

Definition bind {A B} (m : M A) (f : A -> M B) : M B :=
  fun st => match m st with
            | Some (a, st') => f a st'
            | None => None
            end.

Definition out_of_fuel {A} : M A := fun _ => None.

Notation "x <- m ;; k" := (bind m (fun x => k))
  (at level 61, m at next level, right associativity).
Notation "' p <- m ;; k" := (bind m (fun x => let p := x in k))
  (at level 61, p pattern, m at next level, right associativity).

(** *** Bus and clock primitives

    The calls [ls.bus.ReadByteFromReg], [ls.bus.ReadWordFromReg] and
    [ls.bus.WriteByteToReg].  The world's answer is taken at the Go type of
    the method's result ([byte], [uint16]), its error, if any, becomes a
    [BusError], and the transfer is appended to the log. *)

Definition bus_ReadByteFromReg (addr reg : Z) : M (Z * option error) :=
  fun st =>
    let '((v, e), w) := ReadByteFromReg addr reg (world st) in
    let v := byte v in
    let e := option_map BusError e in
    Some ((v, e), {| world := w; log := log st ++ [EvReadByte addr reg v e] |}).

Definition bus_ReadWordFromReg (addr reg : Z) : M (Z * option error) :=
  fun st =>
    let '((v, e), w) := ReadWordFromReg addr reg (world st) in
    let v := uint16 v in
    let e := option_map BusError e in
    Some ((v, e), {| world := w; log := log st ++ [EvReadWord addr reg v e] |}).

Definition bus_WriteByteToReg (addr reg value : Z) : M (option error) :=
  fun st =>
    let '(e, w) := WriteByteToReg addr reg value (world st) in
    let e := option_map BusError e in
    Some (e, {| world := w; log := log st ++ [EvWriteByte addr reg value e] |}).

Definition time_Now : M Z := fun st => Some (now (world st), st).

Definition time_Since (t : Z) : M Z :=
  fun st => Some (saturate (now (world st) - t), st).

Definition time_Sleep (d : Z) : M unit :=
  fun st => Some (tt, {| world := sleep d (world st); log := log st ++ [EvSleep d] |}).

(** *** Status polling *)

Definition GetStatus (ls : Lidar) : M (Z * option error) :=
  bus_ReadByteFromReg (address ls) 0x01.

Definition timeoutError : error :=
  errorString "Timed out waiting for non-Busy LIDAR status".

(** The [for] loop of waitReadyStatus; one unit of fuel per iteration. *)
Fixpoint waitReadyStatus_loop (fuel : nat) (ls : Lidar) (startedAt backoff : Z)
  : M (Z * option error) :=
  match fuel with
  | O => out_of_fuel
  | S fuel' =>
      '(status, err) <- GetStatus ls ;;
      if is_nil err && (Z.land status Busy =? 0) then ret (status, err)
      else
        elapsed <- time_Since startedAt ;;
        if elapsed >=? WaitTimeout ls then
          ret (status, if is_nil err then Some timeoutError else err)
        else
          _ <- time_Sleep backoff ;;
          waitReadyStatus_loop fuel' ls startedAt (int64 (backoff * 2))
  end.

Definition waitReadyStatus (fuel : nat) (ls : Lidar) : M (Z * option error) :=
  startedAt <- time_Now ;;
  waitReadyStatus_loop fuel ls startedAt Millisecond.

Definition waitReadyForCommand (fuel : nat) (ls : Lidar) : M (option error) :=
  '(_, err) <- waitReadyStatus fuel ls ;;
  ret err.

Definition measurementError : error :=
  errorString "LIDAR has detected an error during measurement".

Definition signalError : error :=
  errorString "LIDAR has not received it's signal".

Definition waitAcquisitionReady (fuel : nat) (ls : Lidar) : M (option error) :=
  '(status, err) <- waitReadyStatus fuel ls ;;
  if is_nil err then
    err <- (if Z.land status Healthy =? 0 then
              '(healthFlags, _) <- bus_ReadByteFromReg (address ls) 0x48 ;;
              ret (Some (HealthError healthFlags))
            else ret err) ;;
    let err := if negb (Z.land status ErrorDetected =? 0)
               then Some measurementError else err in
    let err := if negb (Z.land status SignalNotDetected =? 0)
               then Some signalError else err in
    ret err
  else ret err.

(** *** Mode configuration *)

Definition setAcquisitionInterval (ls : Lidar) (interval : Z) (velocity : bool)
  : M (option error) :=
  '(control, err) <- bus_ReadByteFromReg (address ls) modeControlRegister ;;
  if negb (is_nil err) then ret err
  else
    let control := if velocity
                   then Z.lor control velocityModeEnabled
                   else Z.ldiff control velocityModeEnabled in
    if interval =? DefaultAcquisitionInterval then
      err <- bus_WriteByteToReg (address ls) modeControlRegister
               (Z.ldiff control customAcquisitionInterval) ;;
      if negb (is_nil err) then ret err else ret None
    else
      let translatedInterval := translatedInterval interval in
      if (translatedInterval <? minIntervalValue)
         || (translatedInterval >? maxIntervalValue) then
        ret (Some (IntervalError interval))
      else
        err <- bus_WriteByteToReg (address ls) 0x45 (byte translatedInterval) ;;
        if negb (is_nil err) then ret err
        else
          err <- bus_WriteByteToReg (address ls) modeControlRegister
                   (Z.lor control customAcquisitionInterval) ;;
          if negb (is_nil err) then ret err else ret None.

Definition setAcquisitionCount (ls : Lidar) (count : Z) : M (option error) :=
  bus_WriteByteToReg (address ls) 0x11 count.

(** *** Acquisition and read-out *)

Definition Acquire (fuel : nat) (ls : Lidar) (stablizePreamp : bool)
  : M (option error) :=
  err <- waitReadyForCommand fuel ls ;;
  if negb (is_nil err) then ret err
  else
    let command := if stablizePreamp then 0x04 else 0x03 in
    bus_WriteByteToReg (address ls) 0x00 command.

(** The guard shared by ReadDistance and ReadVelocity: an error that is
    not a [*HealthError] ends the call. *)
Definition fatal (healthError : option error) : bool :=
  match healthError with
  | Some e => negb (isHealthError e)
  | None => false
  end.

Definition ReadDistance (fuel : nat) (ls : Lidar) : M (Z * option error) :=
  healthError <- waitAcquisitionReady fuel ls ;;
  if fatal healthError then ret (0, healthError)
  else
    '(value, err) <- bus_ReadWordFromReg (address ls) 0x8f ;;
    if negb (is_nil err) then ret (0, err)
    else ret (value, healthError).

(** One turn of the [for] loop of GetDistance, up to the deadline test:
    [err = ls.Acquire(true)] and, if that is nil,
    [value, err = ls.ReadDistance()].  [value] is the named result, which
    keeps what the last ReadDistance assigned to it; the turn ends with a
    nil [err] exactly when the source reaches its inner [return]. *)
Definition GetDistance_attempt (fuel : nat) (ls : Lidar) (value : Z)
  : M (Z * option error) :=
  err <- Acquire fuel ls true ;;
  if is_nil err then ReadDistance fuel ls
  else ret (value, err).

(** The [for] loop of GetDistance; one unit of [n] per iteration. *)
Fixpoint GetDistance_loop (n fuel : nat) (ls : Lidar) (startedAt value : Z)
  : M (Z * option error) :=
  match n with
  | O => out_of_fuel
  | S n' =>
      '(value, err) <- GetDistance_attempt fuel ls value ;;
      if is_nil err then ret (value, err)
      else
        elapsed <- time_Since startedAt ;;
        if elapsed >=? WaitTimeout ls then ret (value, err)
        else GetDistance_loop n' fuel ls startedAt value
  end.

Definition GetDistance (fuel : nat) (ls : Lidar) : M (Z * option error) :=
  startedAt <- time_Now ;;
  err <- setAcquisitionCount ls 0 ;;
  if negb (is_nil err) then ret (0, err)
  else GetDistance_loop fuel fuel ls startedAt 0.

Definition ReadVelocity (fuel : nat) (ls : Lidar) : M (Z * option error) :=
  healthError <- waitAcquisitionReady fuel ls ;;
  if fatal healthError then ret (0, healthError)
  else
    '(control, err) <- bus_ReadByteFromReg (address ls) modeControlRegister ;;
    if negb (is_nil err) then ret (0, err)
    else
      '(scale, err) <-
         (if negb (Z.land control customAcquisitionInterval =? 0)
          then bus_ReadByteFromReg (address ls) 0x45
          else ret (byte defaultIntervalValue, err)) ;;
      if negb (is_nil err) then ret (0, err)
      else
        '(valueUnscaled, err) <- bus_ReadByteFromReg (address ls) 0x09 ;;
        if negb (is_nil err) then ret (0, err)
        else
          let value := int16 (Z.quot (int8 valueUnscaled * scale) 20) in
          ret (value, healthError).

(** *** Power state, reset, version and the three public modes *)

Definition Sleep (ls : Lidar) : M (option error) :=
  bus_WriteByteToReg (address ls) 0x65 0x0f.

(** [_, _ = ls.GetStatus()]: the dummy read, its answer dropped. *)
Definition Wake (ls : Lidar) : M (option error) :=
  _ <- GetStatus ls ;;
  bus_WriteByteToReg (address ls) 0x65 0x00.

Definition Reset (fuel : nat) (ls : Lidar) : M (option error) :=
  err <- Wake ls ;;
  if negb (is_nil err) then ret err
  else
    err <- bus_WriteByteToReg (address ls) 0x00 0x00 ;;
    if negb (is_nil err) then ret err
    else waitReadyForCommand fuel ls.

(** The named results [hw], [sw], [err]: [sw] stays zero when the first
    read fails, [hw] is whatever that read returned. *)
Definition GetVersion (ls : Lidar) : M (Z * Z * option error) :=
  '(hw, err) <- bus_ReadByteFromReg (address ls) 0x41 ;;
  if is_nil err then
    '(sw, err) <- bus_ReadByteFromReg (address ls) 0x4f ;;
    ret (hw, sw, err)
  else ret (hw, 0, err).

Definition SetDistanceOnlyMode (ls : Lidar) : M (option error) :=
  err <- setAcquisitionInterval ls DefaultAcquisitionInterval false ;;
  if negb (is_nil err) then ret err
  else setAcquisitionCount ls 0.

Definition SetContinuousMode (ls : Lidar) (total : Z) (interval : Z)
  : M (option error) :=
  err <- setAcquisitionInterval ls interval false ;;
  if negb (is_nil err) then ret err
  else setAcquisitionCount ls total.

Definition SetDistanceAndVelocityMode (ls : Lidar) (window : Z)
  : M (option error) :=
  err <- setAcquisitionInterval ls window true ;;
  if negb (is_nil err) then ret err
  else setAcquisitionCount ls 0.

(** *** Vocabulary over computations *)

(** A computation that always yields a result. *)
Definition total {A} (m : M A) : Prop :=
  forall st, exists a st', m st = Some (a, st').

(** A computation during which the clock moves on by at least [k]. *)
Definition advances {A} (k : Z) (m : M A) : Prop :=
  forall st a st', m st = Some (a, st') -> now (world st) + k <= now (world st').

(** The runs of the GetDistance loop started at [startedAt]: a turn that
    succeeds ends the loop with its value; a turn that fails ends it with
    that turn's error once the elapsed time has reached WaitTimeout, and is
    followed by another turn before. *)
Inductive attempts (fuel : nat) (ls : Lidar) (startedAt : Z)
  : Z -> St -> Z * option error -> St -> Prop :=
| attempts_success value st v st' :
    GetDistance_attempt fuel ls value st = Some ((v, None), st') ->
    attempts fuel ls startedAt value st (v, None) st'
| attempts_deadline value st v e st' :
    GetDistance_attempt fuel ls value st = Some ((v, Some e), st') ->
    WaitTimeout ls <= saturate (now (world st') - startedAt) ->
    attempts fuel ls startedAt value st (v, Some e) st'
| attempts_retry value st v e st1 r st' :
    GetDistance_attempt fuel ls value st = Some ((v, Some e), st1) ->
    saturate (now (world st1) - startedAt) < WaitTimeout ls ->
    attempts fuel ls startedAt v st1 r st' ->
    attempts fuel ls startedAt value st r st'.

(** The same runs told through Acquire and ReadDistance themselves.  A turn
    is [Acquire(true)] followed, only if it returned nil, by
    [ReadDistance()].  A turn whose ReadDistance returns a nil error ends
    the loop with the distance read.  A turn that fails, in Acquire (the
    named result [value] then keeps what it held) or in ReadDistance (which
    assigns [value]), ends the loop with that error if the time elapsed
    since [startedAt] has reached WaitTimeout, and is followed by the next
    turn otherwise. *)
Inductive turns (fuel : nat) (ls : Lidar) (startedAt : Z)
  : Z -> St -> Z * option error -> St -> Prop :=
| turns_success value st st1 v st2 :
    Acquire fuel ls true st = Some (None, st1) ->
    ReadDistance fuel ls st1 = Some ((v, None), st2) ->
    turns fuel ls startedAt value st (v, None) st2
| turns_acquire_deadline value st e st1 :
    Acquire fuel ls true st = Some (Some e, st1) ->
    WaitTimeout ls <= saturate (now (world st1) - startedAt) ->
    turns fuel ls startedAt value st (value, Some e) st1
| turns_read_deadline value st st1 v e st2 :
    Acquire fuel ls true st = Some (None, st1) ->
    ReadDistance fuel ls st1 = Some ((v, Some e), st2) ->
    WaitTimeout ls <= saturate (now (world st2) - startedAt) ->
    turns fuel ls startedAt value st (v, Some e) st2
| turns_acquire_retry value st e st1 r st' :
    Acquire fuel ls true st = Some (Some e, st1) ->
    saturate (now (world st1) - startedAt) < WaitTimeout ls ->
    turns fuel ls startedAt value st1 r st' ->
    turns fuel ls startedAt value st r st'
| turns_read_retry value st st1 v e st2 r st' :
    Acquire fuel ls true st = Some (None, st1) ->
    ReadDistance fuel ls st1 = Some ((v, Some e), st2) ->
    saturate (now (world st2) - startedAt) < WaitTimeout ls ->
    turns fuel ls startedAt v st2 r st' ->
    turns fuel ls startedAt value st r st'.

End Driver.

Arguments St W : clear implicits.
Arguments M W A : clear implicits.

(** ** A simulated sensor

    A register file behind the bus, used to run the driver on concrete
    inputs.  Reads of the status register first consume [script], one
    answer per read; transfers to a register listed in [broken] fail; every
    transfer takes [transfer_time] nanoseconds and [sleep] takes exactly the
    time asked for. *)

Module Sim.

Record Device : Type := {
  regs : list (Z * Z);
  script : list (Z * option string);
  broken : list Z;
  clock : Z
}.

Definition transfer_time : Z := 1000.

Fixpoint lookup (reg : Z) (l : list (Z * Z)) : Z :=
  match l with
  | [] => 0
  | (k, v) :: l' => if k =? reg then v else lookup reg l'
  end.

Definition is_broken (reg : Z) (d : Device) : bool :=
  existsb (Z.eqb reg) (broken d).

Definition tick (d : Device) : Device :=
  {| regs := regs d; script := script d; broken := broken d;
     clock := clock d + transfer_time |}.

Definition read (reg : Z) (d : Device) : (Z * option string) * Device :=
  match (reg =? 0x01), script d with
  | true, answer :: rest =>
      (answer, tick {| regs := regs d; script := rest; broken := broken d;
                       clock := clock d |})
  | _, _ =>
      if is_broken reg d then ((0, Some "remote I/O error"), tick d)
      else ((lookup reg (regs d), None), tick d)
  end.

Definition write (reg value : Z) (d : Device) : option string * Device :=
  if is_broken reg d then (Some "remote I/O error", tick d)
  else (None, tick {| regs := (reg, value) :: regs d; script := script d;
                      broken := broken d; clock := clock d |}).

Definition pause (dur : Z) (d : Device) : Device :=
  {| regs := regs d; script := script d; broken := broken d;
     clock := clock d + Z.max 0 dur |}.

#[global] Instance Device_World : World Device := {
  ReadByteFromReg := fun _ reg d => read reg d;
  ReadWordFromReg := fun _ reg d => read reg d;
  WriteByteToReg := fun _ reg value d => write reg value d;
  now := clock;
  sleep := pause
}.

Definition boot (regs : list (Z * Z)) (script : list (Z * option string))
  (broken : list Z) : St Device :=
  {| world := {| regs := regs; script := script; broken := broken; clock := 0 |};
     log := [] |}.

(** A handle with a short timeout, for runs on the simulated sensor. *)
Definition quick : Lidar := {| address := DefaultAddress; WaitTimeout := 5000 |}.

(** A sensor whose first status read fails on the bus, whose second finds
    it busy and whose third finds it ready and healthy. *)
Definition flaky : St Device :=
  boot [] [(0, Some "nack"); (0x21, None); (0x20, None)] [].

(** A sensor that stays busy for ever. *)
Definition stuck : St Device := boot [(0x01, 0x01)] [] [].

End Sim.

(** ** Vocabulary of the statements *)

(** One unit of the interval register (0x45): half a millisecond. *)
Definition registerUnit : Z := Millisecond / 2.

(** An answer of the bus: no error, or an error of the bus's own. *)
Definition from_bus (e : option error) : Prop :=
  e = None \/ exists s, e = Some (BusError s).

(** A byte read as a signed 8-bit quantity. *)
Definition signed8 (r : Z) : Z := if r <? 128 then r else r - 256.

(** A status answer that ends the polling loop at once. *)
Definition ready (status : Z) (err : option error) : Prop :=
  err = None /\ Z.land status Busy = 0.

(** What the log shows for polls that were retried: each status answer is
    followed by a sleep, the first of [backoff], every next one doubled. *)
Fixpoint retries (addr backoff : Z) (polls : list (Z * option error))
  : list Event :=
  match polls with
  | [] => []
  | (status, err) :: polls' =>
      EvReadByte addr 0x01 status err :: EvSleep backoff
        :: retries addr (int64 (backoff * 2)) polls'
  end.

(** A world in which time passes: every bus transfer takes at least [tick]
    nanoseconds and the clock never runs backwards. *)
Class Ticking {W : Type} `{World W} (tick : Z) : Prop := {
  tick_pos : 0 < tick;
  tick_ReadByte : forall addr reg w,
    now w + tick <= now (snd (ReadByteFromReg addr reg w));
  tick_ReadWord : forall addr reg w,
    now w + tick <= now (snd (ReadWordFromReg addr reg w));
  tick_WriteByte : forall addr reg value w,
    now w + tick <= now (snd (WriteByteToReg addr reg value w));
  tick_sleep : forall d w, now w <= now (sleep d w)
}.

(** The durations of the sleeps in a log, in order. *)
Fixpoint sleeps (l : list Event) : list Z :=
  match l with
  | [] => []
  | EvSleep d :: l' => d :: sleeps l'
  | _ :: l' => sleeps l'
  end.

(** The backoff sequence without overflow: 1 ms, 2 ms, 4 ms, ... *)
Fixpoint doubling (b : Z) (n : nat) : list Z :=
  match n with
  | O => []
  | S n' => b :: doubling (b * 2) n'
  end.

(** A world in which [time.Sleep] lasts at least as long as asked. *)
Class Resting {W : Type} `{World W} : Prop := {
  rest_sleep : forall d w, now w + d <= now (sleep d w)
}.

(** A world in which no bus transfer moves the clock back (a transfer may
    take no time at all). *)
Class Monotonic {W : Type} `{World W} : Prop := {
  mono_ReadByte : forall addr reg w,
    now w <= now (snd (ReadByteFromReg addr reg w));
  mono_ReadWord : forall addr reg w,
    now w <= now (snd (ReadWordFromReg addr reg w));
  mono_WriteByte : forall addr reg value w,
    now w <= now (snd (WriteByteToReg addr reg value w))
}.

(** A write of the log, as register and value. *)
Definition write_of (ev : Event) : option (Z * Z) :=
  match ev with
  | EvWriteByte _ reg value _ => Some (reg, value)
  | _ => None
  end.

(** A computation that writes no register. *)
Definition quiet {W : Type} {A : Type} (m : M W A) : Prop :=
  forall st a st', m st = Some (a, st') -> writes (log st') = writes (log st).

(** A computation all of whose register writes satisfy [P]. *)
Definition writes_only {W : Type} {A : Type} (P : Event -> Prop) (m : M W A)
  : Prop :=
  forall st a st', m st = Some (a, st') ->
    exists new, writes (log st') = writes (log st) ++ new /\ Forall P new.

(** The acquire command with preamp stabilization, 0x04 to register 0x00. *)
Definition is_acquire (ev : Event) : Prop := write_of ev = Some (0x00, 0x04).

(** * Properties *)

(** ** Integer conversions *)

Lemma byte_range x : 0 <= byte x < 256.
Proof. unfold byte. apply Z.mod_pos_bound. lia. Qed.

Lemma int8_of_byte x :
  0 <= x < 256 -> int8 x = if x <? 128 then x else x - 256.
Proof.
  intros H. unfold int8. destruct (x <? 128) eqn:E.
  - apply Z.ltb_lt in E. rewrite Z.mod_small; lia.
  - apply Z.ltb_ge in E.
    replace (x + 128) with ((x - 128) + 1 * 256) by lia.
    rewrite Z.mod_add by lia. rewrite Z.mod_small; lia.
Qed.

Lemma int16_small x : -32768 <= x < 32768 -> int16 x = x.
Proof. intros H. unfold int16. rewrite Z.mod_small; lia. Qed.

Lemma int64_small x : minDuration <= x <= maxDuration -> int64 x = x.
Proof.
  unfold minDuration, maxDuration, int64. intros H.
  rewrite Z.mod_small; lia.
Qed.

Lemma saturate_lt_inv x t : t <= maxDuration -> saturate x < t -> x < t.
Proof. unfold saturate. lia. Qed.

(** ** Bit tests *)

Lemma land_bit_eqb (x : Z) (k : Z) :
  0 <= k -> (Z.land x (Z.shiftl 1 k) =? 0) = negb (Z.testbit x k).
Proof.
  intros Hk. rewrite Z.shiftl_1_l.
  destruct (Z.testbit x k) eqn:B; simpl.
  - apply Z.eqb_neq. intros E.
    assert (T : Z.testbit (Z.land x (2 ^ k)) k = true).
    { rewrite Z.land_spec, B, Z.pow2_bits_true; auto. }
    rewrite E, Z.bits_0 in T. discriminate.
  - apply Z.eqb_eq. apply Z.bits_inj'. intros n Hn.
    rewrite Z.land_spec, Z.bits_0, Z.pow2_bits_eqb by assumption.
    destruct (Z.eqb_spec k n) as [->|]; [rewrite B|]; auto using andb_false_r.
Qed.

(** ** HealthError.Error *)

(** C10: simultaneous health sub-flags are resolved first match wins, in the
    order reference signal (bit 1), transmit power (bit 2), DC/preamplifier
    (bit 3); with none of the three set, flags byte 0 included, the generic
    message is returned. *)
Theorem HealthError_Error_first_match (healthFlags : Z) :
  (Z.testbit healthFlags 1 = true ->
   HealthError_Error healthFlags = "LIDAR unhealthy: reference signal failure") /\
  (Z.testbit healthFlags 1 = false -> Z.testbit healthFlags 2 = true ->
   HealthError_Error healthFlags = "LIDAR unhealthy: transmit power failure") /\
  (Z.testbit healthFlags 1 = false -> Z.testbit healthFlags 2 = false ->
   Z.testbit healthFlags 3 = true ->
   HealthError_Error healthFlags = "LIDAR unhealthy: DC (preamplifier) failure") /\
  (Z.testbit healthFlags 1 = false -> Z.testbit healthFlags 2 = false ->
   Z.testbit healthFlags 3 = false ->
   HealthError_Error healthFlags
   = "LIDAR unhealthy, measurement result may be inaccurate") /\
  HealthError_Error 0 = "LIDAR unhealthy, measurement result may be inaccurate".
Proof.
  unfold HealthError_Error, UnhealthyReference, UnhealthyTransmitPower, UnhealthyDC.
  rewrite !land_bit_eqb, !negb_involutive by lia.
  repeat split; intros; repeat match goal with E : Z.testbit _ _ = _ |- _ =>
    rewrite E; clear E end; reflexivity.
Qed.

Lemma HealthError_Error_first_match_witness :
  HealthError_Error 0x0e = "LIDAR unhealthy: reference signal failure" /\
  HealthError_Error 0x0c = "LIDAR unhealthy: transmit power failure" /\
  HealthError_Error 0x08 = "LIDAR unhealthy: DC (preamplifier) failure" /\
  HealthError_Error 0x01 = "LIDAR unhealthy, measurement result may be inaccurate".
Proof.
  split; [|split; [|split]].
  - apply (HealthError_Error_first_match 0x0e). reflexivity.
  - apply (HealthError_Error_first_match 0x0c); reflexivity.
  - apply (HealthError_Error_first_match 0x08); reflexivity.
  - apply (HealthError_Error_first_match 0x01); reflexivity.
Defined.

(** ** Register transfers *)

Section Facts.

Context {W : Type} `{World W}.

Lemma from_bus_option_map (e : option string) : from_bus (option_map BusError e).
Proof. destruct e; [right; eexists; reflexivity | left; reflexivity]. Qed.

Lemma bus_ReadByteFromReg_run addr reg (st : St W) :
  exists v e st',
    bus_ReadByteFromReg addr reg st = Some ((v, e), st') /\
    log st' = log st ++ [EvReadByte addr reg v e] /\
    0 <= v < 256 /\ from_bus e /\
    world st' = snd (ReadByteFromReg addr reg (world st)).
Proof.
  unfold bus_ReadByteFromReg.
  destruct (ReadByteFromReg addr reg (world st)) as [[v e] w].
  eexists _, _, _. split; [reflexivity|]. simpl.
  split; [reflexivity|]. split; [apply byte_range|].
  split; [apply from_bus_option_map | reflexivity].
Qed.

Lemma bus_ReadWordFromReg_run addr reg (st : St W) :
  exists v e st',
    bus_ReadWordFromReg addr reg st = Some ((v, e), st') /\
    log st' = log st ++ [EvReadWord addr reg v e] /\
    0 <= v < 65536 /\ from_bus e /\
    world st' = snd (ReadWordFromReg addr reg (world st)).
Proof.
  unfold bus_ReadWordFromReg.
  destruct (ReadWordFromReg addr reg (world st)) as [[v e] w].
  eexists _, _, _. split; [reflexivity|]. simpl.
  split; [reflexivity|]. split; [apply Z.mod_pos_bound; lia|].
  split; [apply from_bus_option_map | reflexivity].
Qed.

Lemma bus_WriteByteToReg_run addr reg value (st : St W) :
  exists e st',
    bus_WriteByteToReg addr reg value st = Some (e, st') /\
    log st' = log st ++ [EvWriteByte addr reg value e] /\
    from_bus e /\
    world st' = snd (WriteByteToReg addr reg value (world st)).
Proof.
  unfold bus_WriteByteToReg.
  destruct (WriteByteToReg addr reg value (world st)) as [e w].
  eexists _, _. split; [reflexivity|]. simpl.
  split; [reflexivity|].
  split; [apply from_bus_option_map | reflexivity].
Qed.

Lemma from_bus_not_nil (e : option error) :
  from_bus e -> is_nil e = false -> exists s, e = Some (BusError s).
Proof. intros [->|[s ->]] E; [discriminate | eauto]. Qed.

End Facts.

(** ** Mode configuration *)

Section Configure.

Context {W : Type} `{World W}.

Lemma control_bits (control : Z) (velocity : bool) :
  let value :=
    Z.ldiff (if velocity then Z.lor control velocityModeEnabled
             else Z.ldiff control velocityModeEnabled)
            customAcquisitionInterval in
  Z.testbit value 5 = false /\ Z.testbit value 7 = velocity /\
  forall n, n <> 5 -> n <> 7 -> Z.testbit value n = Z.testbit control n.
Proof.
  unfold velocityModeEnabled, customAcquisitionInterval.
  rewrite !Z.shiftl_1_l. cbv zeta.
  assert (P : forall k n, 0 <= k -> Z.testbit (2 ^ k) n = (k =? n)).
  { intros k n Hk. destruct (Z.ltb_spec n 0).
    - rewrite Z.testbit_neg_r by assumption. symmetry. apply Z.eqb_neq. lia.
    - apply Z.pow2_bits_eqb. assumption. }
  destruct velocity;
    repeat split; intros;
    rewrite ?Z.ldiff_spec, ?Z.lor_spec, ?Z.ldiff_spec, !P by lia;
    repeat match goal with
           | |- context [?a =? ?b] =>
               let E := fresh in destruct (Z.eqb_spec a b) as [E|E]; try lia
           end;
    simpl; rewrite ?andb_true_r, ?andb_false_r, ?orb_true_r, ?orb_false_r;
    reflexivity.
Qed.

(** C7: with the default interval, setAcquisitionInterval reads the control
    register and, when that read succeeds, issues exactly one write, to the
    control register, of the value read with the custom-interval bit (5)
    cleared and the velocity-mode bit (7) set or cleared as asked; no other
    register, the interval register included, is written. *)
Theorem setAcquisitionInterval_default_frame
  (ls : Lidar) (velocity : bool) (st : St W) :
  exists control e err st',
    setAcquisitionInterval ls DefaultAcquisitionInterval velocity st
    = Some (err, st') /\
    ((e <> None /\ err = e /\
      log st' = log st ++ [EvReadByte (address ls) modeControlRegister control e])
     \/
     (e = None /\ exists value,
        log st' = log st ++
          [EvReadByte (address ls) modeControlRegister control None;
           EvWriteByte (address ls) modeControlRegister value err] /\
        Z.testbit value 5 = false /\ Z.testbit value 7 = velocity /\
        forall n, n <> 5 -> n <> 7 -> Z.testbit value n = Z.testbit control n)).
Proof.
  unfold setAcquisitionInterval, bind, ret.
  destruct (bus_ReadByteFromReg_run (address ls) modeControlRegister st)
    as (control & e & st1 & E1 & L1 & _).
  rewrite E1. exists control, e.
  destruct e as [e|]; cbn [is_nil negb].
  - eexists _, _. split; [reflexivity|]. left.
    repeat split; [discriminate | assumption].
  - rewrite Z.eqb_refl.
    match goal with |- context [bus_WriteByteToReg ?a ?r ?v st1] =>
      destruct (bus_WriteByteToReg_run a r v st1) as (we & st2 & E2 & L2 & _);
      rewrite E2; pose proof (control_bits control velocity) as B
    end.
    exists we, st2. split; [destruct we; reflexivity|]. right.
    split; [reflexivity|]. eexists. split; [|exact B].
    rewrite L2, L1, <- app_assoc. reflexivity.
Qed.

Lemma writes_app (l1 l2 : list Event) : writes (l1 ++ l2) = writes l1 ++ writes l2.
Proof. apply filter_app. Qed.

(** The range guard as the code evaluates it: when [translatedInterval],
    the int64 value the code computes, lies outside
    [minIntervalValue, maxIntervalValue], the control-register read is the
    only transfer and the error is the range error (the read's own error if
    that read failed). *)
Lemma setAcquisitionInterval_out_of_range
  (ls : Lidar) (interval : Z) (velocity : bool) (st : St W) :
  interval <> DefaultAcquisitionInterval ->
  translatedInterval interval < minIntervalValue
  \/ translatedInterval interval > maxIntervalValue ->
  exists control e st',
    setAcquisitionInterval ls interval velocity st
    = Some (match e with
            | None => Some (IntervalError interval)
            | Some _ => e
            end, st') /\
    log st' = log st ++ [EvReadByte (address ls) modeControlRegister control e] /\
    writes (log st') = writes (log st).
Proof.
  intros Hd Hr. unfold setAcquisitionInterval, bind, ret.
  destruct (bus_ReadByteFromReg_run (address ls) modeControlRegister st)
    as (control & e & st1 & E1 & L1 & _).
  rewrite E1. exists control, e, st1.
  assert (Hw : writes (log st1) = writes (log st)).
  { rewrite L1, writes_app. simpl. apply app_nil_r. }
  destruct e as [e|]; cbn [is_nil negb]; [auto|].
  apply Z.eqb_neq in Hd. rewrite Hd. cbv zeta.
  assert (G : (translatedInterval interval <? minIntervalValue)
              || (translatedInterval interval >? maxIntervalValue) = true).
  { apply orb_true_iff. destruct Hr as [Hr|Hr]; [left | right].
    - apply Z.ltb_lt. exact Hr.
    - apply Z.gtb_lt. lia. }
  rewrite G. auto.
Qed.

Lemma translatedInterval_exact (interval : Z) :
  minDuration <= interval * 2 <= maxDuration ->
  translatedInterval interval = Z.quot (interval * 2) 1000000.
Proof. intros Hr. unfold translatedInterval. rewrite int64_small; auto. Qed.

End Configure.

(** C6, as amended: for a duration whose doubled millisecond count lies in
    [minIntervalValue, maxIntervalValue], the translated register value is
    the exact truncated quotient, and decoding it with (raw >> 1)
    milliseconds gives back the duration from below within two register
    units (less than one millisecond); within one register unit it is
    recovered only by reading the register value as half-milliseconds. *)
Theorem interval_roundtrip_bound (d : Z) :
  minIntervalValue <= Z.quot (d * 2) Millisecond <= maxIntervalValue ->
  translatedInterval d = Z.quot (d * 2) Millisecond /\
  0 <= d - intervalOfValue (translatedInterval d) < 2 * registerUnit /\
  0 <= d - translatedInterval d * registerUnit < registerUnit.
Proof.
  unfold registerUnit, minIntervalValue, maxIntervalValue, Millisecond.
  change (1000000 / 2) with 500000. intros Hq.
  assert (Hd : 0 <= d * 2).
  { destruct (Z.le_gt_cases 0 (d * 2)) as [|N]; [assumption|].
    pose proof (Z.quot_opp_l (- (d * 2)) 1000000 ltac:(lia)) as Q.
    rewrite Z.opp_involutive in Q.
    pose proof (Z.quot_pos (- (d * 2)) 1000000 ltac:(lia) ltac:(lia)). lia. }
  rewrite Z.quot_div_nonneg in Hq by lia.
  assert (Hx : translatedInterval d = d * 2 / 1000000).
  { rewrite translatedInterval_exact.
    - apply Z.quot_div_nonneg; lia.
    - unfold minDuration, maxDuration.
      pose proof (Z.mul_div_le (d * 2) 1000000 ltac:(lia)).
      pose proof (Z.mul_succ_div_gt (d * 2) 1000000 ltac:(lia)). lia. }
  rewrite Z.quot_div_nonneg by lia. rewrite Hx.
  unfold intervalOfValue, Millisecond. rewrite Z.shiftr_div_pow2 by lia.
  change (2 ^ 1) with 2.
  pose proof (Z.mul_div_le (d * 2) 1000000 ltac:(lia)).
  pose proof (Z.mul_succ_div_gt (d * 2) 1000000 ltac:(lia)).
  pose proof (Z.mul_div_le (d * 2 / 1000000) 2 ltac:(lia)).
  pose proof (Z.mul_succ_div_gt (d * 2 / 1000000) 2 ltac:(lia)).
  repeat split; lia.
Qed.

Lemma interval_roundtrip_bound_witness :
  translatedInterval 1750000 = 3 /\
  0 <= 1750000 - intervalOfValue (translatedInterval 1750000) < 2 * registerUnit.
Proof.
  split; [reflexivity|].
  apply (interval_roundtrip_bound 1750000). vm_compute. split; discriminate.
Defined.

(** C6, as stated, fails: 1.75 ms is translated to 3, which decodes to 1 ms,
    three quarters of a millisecond away, more than one register unit. *)
Lemma interval_roundtrip_one_unit_fails :
  minIntervalValue <= Z.quot (1750000 * 2) Millisecond <= maxIntervalValue /\
  translatedInterval 1750000 = 3 /\
  intervalOfValue (translatedInterval 1750000) = 1000000 /\
  ~ Z.abs (1750000 - intervalOfValue (translatedInterval 1750000)) <= registerUnit.
Proof.
  split; [vm_compute; split; discriminate|].
  split; [reflexivity|]. split; [reflexivity|].
  vm_compute. intros N. apply N. reflexivity.
Qed.

(** ** Status polling *)

Section Polling.

Context {W : Type} `{World W}.

Lemma ready_iff (status : Z) (e : option error) :
  is_nil e && (Z.land status Busy =? 0) = true <-> ready status e.
Proof.
  unfold ready. rewrite andb_true_iff, Z.eqb_eq.
  destruct e; simpl; intuition congruence.
Qed.

Lemma not_ready_iff (status : Z) (e : option error) :
  is_nil e && (Z.land status Busy =? 0) = false <-> ~ ready status e.
Proof.
  rewrite <- ready_iff. destruct (is_nil e && (Z.land status Busy =? 0)).
  - split; [discriminate | intros N; exfalso; apply N; reflexivity].
  - split; [intros _; discriminate | reflexivity].
Qed.

Lemma geb_true_le (a b : Z) : (a >=? b) = true -> b <= a.
Proof. rewrite Z.geb_leb. apply Z.leb_le. Qed.

Lemma geb_false_lt (a b : Z) : (a >=? b) = false -> a < b.
Proof. rewrite Z.geb_leb. apply Z.leb_gt. Qed.

Lemma waitReadyStatus_loop_post (fuel : nat) :
  forall (ls : Lidar) (startedAt backoff : Z) (st : St W) status err st',
    waitReadyStatus_loop fuel ls startedAt backoff st = Some ((status, err), st') ->
    exists polls e,
      log st' = log st ++ retries (address ls) backoff polls
                  ++ [EvReadByte (address ls) 0x01 status e] /\
      Forall (fun p => ~ ready (fst p) (snd p)) polls /\
      from_bus e /\ 0 <= status < 256 /\
      (ready status e -> err = None) /\
      (~ ready status e ->
       WaitTimeout ls <= saturate (now (world st') - startedAt) /\
       err = match e with None => Some timeoutError | Some _ => e end).
Proof.
  induction fuel as [|fuel IH]; intros ls startedAt backoff st status err st' Hrun.
  - discriminate.
  - cbn [waitReadyStatus_loop] in Hrun. unfold bind, GetStatus in Hrun.
    destruct (bus_ReadByteFromReg_run (address ls) 0x01 st)
      as (v & e & st1 & E1 & L1 & Rv & Fe & _).
    rewrite E1 in Hrun. cbv beta iota in Hrun.
    destruct (is_nil e && (Z.land v Busy =? 0)) eqn:R.
    + injection Hrun as <- <- <-. exists [], e.
      split; [exact L1|]. split; [constructor|]. split; [exact Fe|].
      split; [exact Rv|]. apply ready_iff in R. split.
      * intros _. apply R.
      * intros N. contradiction.
    + unfold time_Since in Hrun. cbv beta iota in Hrun.
      destruct (saturate (now (world st1) - startedAt) >=? WaitTimeout ls) eqn:T.
      * injection Hrun as <- <- <-. exists [], e.
        split; [exact L1|]. split; [constructor|]. split; [exact Fe|].
        split; [exact Rv|]. apply not_ready_iff in R. split.
        -- intros Y. contradiction.
        -- intros _. split; [apply geb_true_le; exact T|].
           destruct e; reflexivity.
      * unfold time_Sleep in Hrun. cbv beta iota in Hrun.
        apply IH in Hrun.
        destruct Hrun as (polls & e' & L & NR & Fe' & Rs & Y & N).
        exists ((v, e) :: polls), e'.
        split.
        { rewrite L. cbn [log retries]. rewrite L1, <- !app_assoc. reflexivity. }
        split.
        { constructor; [apply not_ready_iff; exact R | exact NR]. }
        split; [exact Fe'|]. split; [exact Rs|]. split; [exact Y|].
        exact N.
Qed.

End Polling.

(** ** Time and termination *)

Section Clock.

Context {W : Type} `{World W} (tick : Z) {T : Ticking tick}.

Lemma total_ret {A} (a : A) : total (W:=W) (ret a).
Proof. intros st. eexists _, _. reflexivity. Qed.

Lemma total_bind {A B} (m : M W A) (f : A -> M W B) :
  total m -> (forall a, total (f a)) -> total (bind m f).
Proof.
  intros Hm Hf st. destruct (Hm st) as (a & st1 & E).
  unfold bind. rewrite E. apply Hf.
Qed.

Lemma advances_ret {A} (a : A) : advances (W:=W) 0 (ret a).
Proof. intros st a' st' E. injection E as _ <-. lia. Qed.

Lemma advances_bind {A B} (k1 k2 : Z) (m : M W A) (f : A -> M W B) :
  advances k1 m -> (forall a, advances k2 (f a)) -> advances (k1 + k2) (bind m f).
Proof.
  intros Hm Hf st b st' E. unfold bind in E.
  destruct (m st) as [[a st1]|] eqn:E1; [|discriminate].
  apply Hm in E1. apply Hf in E. lia.
Qed.

Lemma advances_bind_l {A B} (k : Z) (m : M W A) (f : A -> M W B) :
  advances k m -> (forall a, advances 0 (f a)) -> advances k (bind m f).
Proof.
  intros Hm Hf. replace k with (k + 0) by lia. apply advances_bind; assumption.
Qed.

Lemma advances_le {A} (k k' : Z) (m : M W A) :
  k' <= k -> advances k m -> advances k' m.
Proof. intros Hk Hm st a st' E. apply Hm in E. lia. Qed.

Lemma total_ReadByte addr reg : total (bus_ReadByteFromReg addr reg).
Proof.
  intros st. destruct (bus_ReadByteFromReg_run addr reg st) as (v & e & st' & E & _).
  eauto.
Qed.

Lemma total_ReadWord addr reg : total (bus_ReadWordFromReg addr reg).
Proof.
  intros st. destruct (bus_ReadWordFromReg_run addr reg st) as (v & e & st' & E & _).
  eauto.
Qed.

Lemma total_WriteByte addr reg value : total (bus_WriteByteToReg addr reg value).
Proof.
  intros st.
  destruct (bus_WriteByteToReg_run addr reg value st) as (e & st' & E & _).
  eauto.
Qed.

Lemma total_Now : total (W:=W) time_Now.
Proof. intros st. eexists _, _. reflexivity. Qed.

Lemma total_Since t : total (W:=W) (time_Since t).
Proof. intros st. eexists _, _. reflexivity. Qed.

Lemma total_Sleep d : total (W:=W) (time_Sleep d).
Proof. intros st. eexists _, _. reflexivity. Qed.

Lemma advances_ReadByte addr reg : advances tick (bus_ReadByteFromReg addr reg).
Proof.
  intros st a st' E.
  destruct (bus_ReadByteFromReg_run addr reg st) as (v & e & st1 & E1 & _ & _ & _ & Hw).
  rewrite E1 in E. injection E as _ <-. rewrite Hw. apply tick_ReadByte.
Qed.

Lemma advances_ReadWord addr reg : advances tick (bus_ReadWordFromReg addr reg).
Proof.
  intros st a st' E.
  destruct (bus_ReadWordFromReg_run addr reg st) as (v & e & st1 & E1 & _ & _ & _ & Hw).
  rewrite E1 in E. injection E as _ <-. rewrite Hw. apply tick_ReadWord.
Qed.

Lemma advances_WriteByte addr reg value :
  advances tick (bus_WriteByteToReg addr reg value).
Proof.
  intros st a st' E.
  destruct (bus_WriteByteToReg_run addr reg value st) as (e & st1 & E1 & _ & _ & Hw).
  rewrite E1 in E. injection E as _ <-. rewrite Hw. apply tick_WriteByte.
Qed.

Lemma advances_Now : advances (W:=W) 0 time_Now.
Proof. intros st a st' E. injection E as _ <-. lia. Qed.

Lemma advances_Since t : advances (W:=W) 0 (time_Since t).
Proof. intros st a st' E. injection E as _ <-. lia. Qed.

Lemma advances_Sleep d : advances (W:=W) 0 (time_Sleep d).
Proof.
  intros st a st' E. injection E as _ <-. cbn [world].
  pose proof (tick_sleep d (world st)). lia.
Qed.

Lemma tick_nonneg : 0 <= tick.
Proof. pose proof tick_pos. lia. Qed.

Ltac mono :=
  repeat first
    [ apply advances_ret
    | apply advances_Now
    | apply advances_Since
    | apply advances_Sleep
    | apply (advances_le tick 0 _ tick_nonneg); apply advances_ReadByte
    | apply (advances_le tick 0 _ tick_nonneg); apply advances_ReadWord
    | apply (advances_le tick 0 _ tick_nonneg); apply advances_WriteByte
    | assumption
    | apply advances_bind_l; [|intros ?]
    | match goal with
      | |- advances _ (match ?x with _ => _ end) => destruct x
      end ].

Ltac tot :=
  repeat first
    [ apply total_ret
    | apply total_Now
    | apply total_Since
    | apply total_Sleep
    | apply total_ReadByte
    | apply total_ReadWord
    | apply total_WriteByte
    | assumption
    | apply total_bind; [|intros ?]
    | match goal with
      | |- total (match ?x with _ => _ end) => destruct x
      end ].

Lemma waitReadyStatus_loop_advances (fuel : nat) :
  forall ls startedAt backoff,
    advances tick (waitReadyStatus_loop fuel ls startedAt backoff).
Proof.
  induction fuel as [|fuel IH]; intros ls startedAt backoff.
  - intros st a st' E. discriminate.
  - cbn [waitReadyStatus_loop]. apply advances_bind_l.
    + apply advances_ReadByte.
    + intros [status err].
      pose proof (advances_le tick 0 _ tick_nonneg
                    (IH ls startedAt (int64 (backoff * 2)))).
      mono.
Qed.

Lemma waitReadyStatus_loop_total (fuel : nat) :
  forall ls startedAt backoff (st : St W),
    WaitTimeout ls <= maxDuration ->
    (0 < fuel)%nat ->
    WaitTimeout ls <= now (world st) - startedAt + Z.of_nat fuel * tick ->
    exists r st', waitReadyStatus_loop fuel ls startedAt backoff st = Some (r, st').
Proof.
  induction fuel as [|fuel IH]; intros ls startedAt backoff st Hmax Hpos Hfuel.
  - lia.
  - cbn [waitReadyStatus_loop]. unfold bind, GetStatus.
    destruct (bus_ReadByteFromReg_run (address ls) 0x01 st)
      as (v & e & st1 & E1 & _ & _ & _ & Hw).
    rewrite E1. cbv beta iota.
    destruct (is_nil e && (Z.land v Busy =? 0)); [eexists _, _; reflexivity|].
    unfold time_Since. cbv beta iota.
    destruct (saturate (now (world st1) - startedAt) >=? WaitTimeout ls) eqn:D;
      [eexists _, _; reflexivity|].
    apply geb_false_lt in D. apply saturate_lt_inv in D; [|exact Hmax].
    pose proof (tick_ReadByte (address ls) 0x01 (world st)) as T1.
    rewrite <- Hw in T1.
    unfold time_Sleep. cbv beta iota.
    rewrite Nat2Z.inj_succ, Z.mul_succ_l in Hfuel.
    apply IH; [exact Hmax | destruct fuel; [simpl in Hfuel|]; lia |]. cbn [world].
    pose proof (tick_sleep backoff (world st1)). lia.
Qed.

Section Fuelled.

Variables (ls : Lidar) (fuel : nat).
Hypothesis Hmax : WaitTimeout ls <= maxDuration.
Hypothesis Hpos : (0 < fuel)%nat.
Hypothesis Hfuel : WaitTimeout ls <= Z.of_nat fuel * tick.

Lemma total_waitReadyStatus : total (waitReadyStatus fuel ls).
Proof.
  intros st. unfold waitReadyStatus, bind, time_Now.
  apply waitReadyStatus_loop_total; [exact Hmax | exact Hpos | lia].
Qed.

Lemma advances_waitReadyStatus : advances tick (waitReadyStatus fuel ls).
Proof.
  unfold waitReadyStatus. replace tick with (0 + tick) by lia.
  apply advances_bind; [apply advances_Now|].
  intros a. apply waitReadyStatus_loop_advances.
Qed.

Lemma total_waitReadyForCommand : total (waitReadyForCommand fuel ls).
Proof. pose proof total_waitReadyStatus. unfold waitReadyForCommand. tot. Qed.

Lemma advances_waitReadyForCommand : advances tick (waitReadyForCommand fuel ls).
Proof.
  unfold waitReadyForCommand. apply advances_bind_l.
  - apply advances_waitReadyStatus.
  - intros a. mono.
Qed.

Lemma total_waitAcquisitionReady : total (waitAcquisitionReady fuel ls).
Proof. pose proof total_waitReadyStatus. unfold waitAcquisitionReady. tot. Qed.

Lemma advances_waitAcquisitionReady : advances tick (waitAcquisitionReady fuel ls).
Proof.
  unfold waitAcquisitionReady. apply advances_bind_l.
  - apply advances_waitReadyStatus.
  - intros a. mono.
Qed.

Lemma total_Acquire b : total (Acquire fuel ls b).
Proof. pose proof total_waitReadyForCommand. unfold Acquire. tot. Qed.

Lemma advances_Acquire b : advances tick (Acquire fuel ls b).
Proof.
  unfold Acquire. apply advances_bind_l.
  - apply advances_waitReadyForCommand.
  - intros a. mono.
Qed.

Lemma total_ReadDistance : total (ReadDistance fuel ls).
Proof. pose proof total_waitAcquisitionReady. unfold ReadDistance. tot. Qed.

Lemma advances_ReadDistance : advances tick (ReadDistance fuel ls).
Proof.
  unfold ReadDistance. apply advances_bind_l.
  - apply advances_waitAcquisitionReady.
  - intros a. mono.
Qed.

Lemma total_GetDistance_attempt value : total (GetDistance_attempt fuel ls value).
Proof.
  pose proof (total_Acquire true). pose proof total_ReadDistance.
  unfold GetDistance_attempt. tot.
Qed.

Lemma advances_GetDistance_attempt value :
  advances tick (GetDistance_attempt fuel ls value).
Proof.
  unfold GetDistance_attempt. apply advances_bind_l.
  - apply advances_Acquire.
  - intros a.
    pose proof (advances_le tick 0 _ tick_nonneg advances_ReadDistance). mono.
Qed.

(** C5: waitReadyStatus yields a result, and its log is a run of retried
    polls, each a status answer that was not ready (busy, or a bus error)
    followed by a sleep of the doubling backoff, closed by one last status
    read whose answer it returns.  If that answer is ready (read succeeded,
    Busy clear) the error is nil and nothing follows the read; otherwise the
    elapsed time has reached WaitTimeout and the error is the timeout error
    when the last read succeeded and the bus error itself when it failed. *)
Theorem waitReadyStatus_spec (st : St W) :
  exists status err st' polls e,
    waitReadyStatus fuel ls st = Some ((status, err), st') /\
    log st' = log st ++ retries (address ls) Millisecond polls
                ++ [EvReadByte (address ls) 0x01 status e] /\
    Forall (fun p => ~ ready (fst p) (snd p)) polls /\
    (ready status e -> err = None) /\
    (~ ready status e ->
     WaitTimeout ls <= saturate (now (world st') - now (world st)) /\
     err = match e with None => Some timeoutError | Some _ => e end).
Proof.
  destruct (total_waitReadyStatus st) as ([status err] & st' & E).
  exists status, err, st'.
  pose proof E as E'. unfold waitReadyStatus, bind, time_Now in E'.
  apply waitReadyStatus_loop_post in E'.
  destruct E' as (polls & e & L & NR & _ & _ & Y & N).
  exists polls, e. auto.
Qed.

Lemma GetDistance_loop_run (n : nat) :
  forall startedAt value (st : St W),
    (0 < n)%nat ->
    WaitTimeout ls <= now (world st) - startedAt + Z.of_nat n * tick ->
    exists r st',
      GetDistance_loop n fuel ls startedAt value st = Some (r, st') /\
      attempts fuel ls startedAt value st r st'.
Proof.
  induction n as [|n IH]; intros startedAt value st Hn Hb; [lia|].
  cbn [GetDistance_loop]. unfold bind.
  destruct (total_GetDistance_attempt value st) as ([v err] & st1 & Ea).
  rewrite Ea. cbv beta iota.
  destruct err as [e|]; cbn [is_nil].
  - unfold time_Since. cbv beta iota.
    destruct (saturate (now (world st1) - startedAt) >=? WaitTimeout ls) eqn:D.
    + eexists _, _. split; [reflexivity|].
      apply attempts_deadline; [exact Ea | apply geb_true_le; exact D].
    + apply geb_false_lt in D. pose proof D as D'.
      apply saturate_lt_inv in D'; [|exact Hmax].
      pose proof (advances_GetDistance_attempt value _ _ _ Ea) as A.
      rewrite Nat2Z.inj_succ, Z.mul_succ_l in Hb.
      destruct (IH startedAt v st1) as (r & st' & E & R).
      * destruct n; [simpl in Hb|]; lia.
      * lia.
      * exists r, st'. split; [exact E|].
        eapply attempts_retry; eassumption.
  - eexists _, _. split; [reflexivity|]. apply attempts_success. exact Ea.
Qed.

Lemma attempts_gives_up_late startedAt value (st : St W) r st' :
  attempts fuel ls startedAt value st r st' ->
  snd r <> None ->
  WaitTimeout ls <= saturate (now (world st') - startedAt).
Proof.
  induction 1 as [value st v st' E | value st v e st' E D
                 | value st v e st1 r st' E D R IH]; cbn [snd]; intros N.
  - contradiction.
  - exact D.
  - apply IH. exact N.
Qed.

Lemma GetDistance_attempt_cases value (st : St W) v err st' :
  GetDistance_attempt fuel ls value st = Some ((v, err), st') ->
  (exists e, Acquire fuel ls true st = Some (Some e, st') /\
             v = value /\ err = Some e)
  \/
  (exists st1, Acquire fuel ls true st = Some (None, st1) /\
               ReadDistance fuel ls st1 = Some ((v, err), st')).
Proof.
  unfold GetDistance_attempt, bind. intros E.
  destruct (Acquire fuel ls true st) as [[[e|] st1]|]; [| |discriminate].
  - cbn [is_nil] in E. injection E as <- <- <-. left. eauto.
  - cbn [is_nil] in E. right. eauto.
Qed.

Lemma attempts_turns startedAt value (st : St W) r st' :
  attempts fuel ls startedAt value st r st' ->
  turns fuel ls startedAt value st r st'.
Proof.
  induction 1 as [value st v st' E | value st v e st' E D
                 | value st v e st1 r st' E D R IH].
  - apply GetDistance_attempt_cases in E.
    destruct E as [(e & _ & _ & N)|(st1 & Ea & Er)]; [discriminate|].
    eapply turns_success; eassumption.
  - apply GetDistance_attempt_cases in E.
    destruct E as [(e' & Ea & -> & N)|(st1 & Ea & Er)].
    + injection N as <-. apply turns_acquire_deadline; assumption.
    + eapply turns_read_deadline; eassumption.
  - apply GetDistance_attempt_cases in E.
    destruct E as [(e' & Ea & -> & N)|(st0 & Ea & Er)].
    + eapply turns_acquire_retry; eassumption.
    + eapply turns_read_retry; eassumption.
Qed.

(** C9, as amended: in a world where every bus transfer takes time,
    GetDistance yields a result even when every Acquire or ReadDistance
    fails.  It first writes 0 to the count register (0x11) and, if that
    write fails, returns its error at once.  Otherwise it runs turns of
    Acquire(true) and, when that returns nil, ReadDistance(): the first
    turn whose ReadDistance returns a nil error ends the loop with the
    distance it read, and a turn that fails in Acquire or in ReadDistance
    ends the loop with that error only if the elapsed time has then reached
    WaitTimeout, the next turn starting otherwise.  So it gives up no
    earlier than WaitTimeout after its start, not within it. *)
Theorem GetDistance_terminates (st : St W) :
  exists value err st' e0 st0,
    GetDistance fuel ls st = Some ((value, err), st') /\
    setAcquisitionCount ls 0 st = Some (e0, st0) /\
    log st0 = log st ++ [EvWriteByte (address ls) 0x11 0 e0] /\
    (e0 <> None -> value = 0 /\ err = e0 /\ st' = st0) /\
    (e0 = None ->
     turns fuel ls (now (world st)) 0 st0 (value, err) st' /\
     (err <> None ->
      WaitTimeout ls <= saturate (now (world st') - now (world st)))).
Proof.
  unfold GetDistance, bind, time_Now, setAcquisitionCount.
  destruct (bus_WriteByteToReg_run (address ls) 0x11 0 st)
    as (e0 & st0 & E0 & L0 & _ & Hw).
  rewrite E0. destruct e0 as [e|]; cbn [is_nil negb].
  - eexists _, _, _, _, _. split; [reflexivity|]. split; [reflexivity|].
    split; [exact L0|]. split; [auto | intros N; discriminate].
  - pose proof (tick_WriteByte (address ls) 0x11 0 (world st)) as A.
    rewrite <- Hw in A. pose proof tick_pos as P.
    destruct (GetDistance_loop_run fuel (now (world st)) 0 st0 Hpos)
      as ([value err] & st' & E & R).
    { assert (0 <= Z.of_nat fuel * tick) by nia. lia. }
    exists value, err, st', None, st0.
    split; [exact E|]. split; [reflexivity|]. split; [exact L0|].
    split; [intros N; contradiction|]. intros _.
    split; [apply attempts_turns; exact R|].
    intros N. apply (attempts_gives_up_late _ _ _ _ _ R). exact N.
Qed.

End Fuelled.

End Clock.

Lemma Sim_Ticking : Ticking (W := Sim.Device) Sim.transfer_time.
Proof.
  split.
  - reflexivity.
  - intros addr reg w. cbn. unfold Sim.read.
    destruct (reg =? 1), (Sim.script w), (Sim.is_broken reg w); cbn; lia.
  - intros addr reg w. cbn. unfold Sim.read.
    destruct (reg =? 1), (Sim.script w), (Sim.is_broken reg w); cbn; lia.
  - intros addr reg value w. cbn. unfold Sim.write.
    destruct (Sim.is_broken reg w); cbn; lia.
  - intros d w. cbn. lia.
Qed.

Lemma waitReadyStatus_spec_witness :
  exists status err st' polls e,
    waitReadyStatus 5 Sim.quick Sim.flaky = Some ((status, err), st') /\
    log st' = log Sim.flaky ++ retries (address Sim.quick) Millisecond polls
                ++ [EvReadByte (address Sim.quick) 0x01 status e] /\
    Forall (fun p => ~ ready (fst p) (snd p)) polls /\
    (ready status e -> err = None) /\
    (~ ready status e ->
     WaitTimeout Sim.quick <= saturate (now (world st') - now (world Sim.flaky)) /\
     err = match e with None => Some timeoutError | Some _ => e end).
Proof.
  apply (waitReadyStatus_spec Sim.transfer_time (T := Sim_Ticking) Sim.quick 5%nat).
  - vm_compute. discriminate.
  - lia.
  - vm_compute. discriminate.
Defined.

(** ** Health classification and read-out *)

Section Reading.

Context {W : Type} `{World W}.

Lemma waitReadyStatus_nil_ready fuel ls (st : St W) status st1 :
  waitReadyStatus fuel ls st = Some ((status, None), st1) ->
  Z.land status Busy = 0.
Proof.
  unfold waitReadyStatus, bind, time_Now. intros E.
  apply waitReadyStatus_loop_post in E.
  destruct E as (polls & e & _ & _ & _ & _ & _ & N).
  destruct (Z.eq_dec (Z.land status Busy) 0) as [|B]; [assumption|].
  destruct N as [_ N].
  - intros [_ R]. contradiction.
  - destruct e; discriminate.
Qed.

(** C3: once the poll has returned a status without error (so Busy is
    clear), waitAcquisitionReady checks Healthy, then ErrorDetected, then
    SignalNotDetected, and the last condition found wins: a set
    SignalNotDetected bit gives the no-signal error, else a set
    ErrorDetected bit gives the measurement error, else a clear Healthy bit
    gives a HealthError, else nil.  With Healthy clear and either fatal bit
    set the result is therefore never the soft HealthError. *)
Theorem waitAcquisitionReady_precedence fuel ls (st : St W) status st1 :
  waitReadyStatus fuel ls st = Some ((status, None), st1) ->
  exists err st2,
    waitAcquisitionReady fuel ls st = Some (err, st2) /\
    Z.land status Busy = 0 /\
    (Z.land status SignalNotDetected <> 0 -> err = Some signalError) /\
    (Z.land status SignalNotDetected = 0 -> Z.land status ErrorDetected <> 0 ->
     err = Some measurementError) /\
    (Z.land status SignalNotDetected = 0 -> Z.land status ErrorDetected = 0 ->
     Z.land status Healthy = 0 ->
     exists healthFlags, err = Some (HealthError healthFlags)) /\
    (Z.land status SignalNotDetected = 0 -> Z.land status ErrorDetected = 0 ->
     Z.land status Healthy <> 0 -> err = None) /\
    (Z.land status Healthy = 0 ->
     Z.land status ErrorDetected <> 0 \/ Z.land status SignalNotDetected <> 0 ->
     fatal err = true).
Proof.
  intros E. pose proof (waitReadyStatus_nil_ready _ _ _ _ _ E) as B.
  unfold waitAcquisitionReady, bind. rewrite E. cbv beta iota. cbn [is_nil].
  assert (K : forall (e0 : option error) (st2 : St W),
    (Z.land status Healthy = 0 -> exists f, e0 = Some (HealthError f)) ->
    (Z.land status Healthy <> 0 -> e0 = None) ->
    exists err st2',
      ret (let err := if negb (Z.land status ErrorDetected =? 0)
                      then Some measurementError else e0 in
           let err := if negb (Z.land status SignalNotDetected =? 0)
                      then Some signalError else err in err) st2
      = Some (err, st2') /\
      Z.land status Busy = 0 /\
      (Z.land status SignalNotDetected <> 0 -> err = Some signalError) /\
      (Z.land status SignalNotDetected = 0 -> Z.land status ErrorDetected <> 0 ->
       err = Some measurementError) /\
      (Z.land status SignalNotDetected = 0 -> Z.land status ErrorDetected = 0 ->
       Z.land status Healthy = 0 ->
       exists healthFlags, err = Some (HealthError healthFlags)) /\
      (Z.land status SignalNotDetected = 0 -> Z.land status ErrorDetected = 0 ->
       Z.land status Healthy <> 0 -> err = None) /\
      (Z.land status Healthy = 0 ->
       Z.land status ErrorDetected <> 0 \/ Z.land status SignalNotDetected <> 0 ->
       fatal err = true)).
  { intros e0 st2 Hh Hn. eexists _, st2. split; [reflexivity|].
    split; [exact B|]. cbv zeta.
    destruct (Z.eqb_spec (Z.land status SignalNotDetected) 0) as [S0|S1];
      destruct (Z.eqb_spec (Z.land status ErrorDetected) 0) as [D0|D1];
      cbn [negb]; repeat split; intros; try congruence; auto;
      try reflexivity; intuition congruence. }
  destruct (Z.eqb_spec (Z.land status Healthy) 0) as [H0|H1].
  - destruct (bus_ReadByteFromReg_run (address ls) 0x48 st1)
      as (hf & e & st2 & E2 & _).
    rewrite E2. cbv beta iota. unfold ret at 1.
    apply K; [eauto | congruence].
  - unfold ret at 1. apply K; [congruence | auto].
Qed.

(** C4: after the readiness wait, ReadDistance goes on to read the distance
    register (0x8f) when the wait reported a HealthError, and returns the
    value read together with that health error (zero and the bus error if
    the read itself fails); on any other error of the wait (measurement
    error, no signal, timeout, bus error) it returns zero and that error in
    the state the wait left, so without touching the distance register. *)
Theorem ReadDistance_soft_fail fuel ls (st : St W) herr st1 :
  waitAcquisitionReady fuel ls st = Some (herr, st1) ->
  (forall healthFlags, herr = Some (HealthError healthFlags) ->
   exists value e st2,
     bus_ReadWordFromReg (address ls) 0x8f st1 = Some ((value, e), st2) /\
     log st2 = log st1 ++ [EvReadWord (address ls) 0x8f value e] /\
     ReadDistance fuel ls st
     = Some (match e with None => (value, herr) | Some _ => (0, e) end, st2)) /\
  (forall e, herr = Some e -> isHealthError e = false ->
   ReadDistance fuel ls st = Some ((0, herr), st1)) /\
  isHealthError measurementError = false /\
  isHealthError signalError = false /\
  isHealthError timeoutError = false /\
  (forall s, isHealthError (BusError s) = false).
Proof.
  intros E. unfold ReadDistance, bind. rewrite E.
  split; [|split].
  - intros healthFlags ->. cbn [fatal isHealthError negb].
    destruct (bus_ReadWordFromReg_run (address ls) 0x8f st1)
      as (value & e & st2 & E2 & L2 & _).
    exists value, e, st2. rewrite E2.
    split; [reflexivity|]. split; [exact L2|].
    destruct e; reflexivity.
  - intros e -> F. cbn [fatal]. rewrite F. reflexivity.
  - repeat split.
Qed.

Lemma bus_ReadByteFromReg_range addr reg (st : St W) v e st' :
  bus_ReadByteFromReg addr reg st = Some ((v, e), st') ->
  0 <= v < 256 /\ from_bus e /\ log st' = log st ++ [EvReadByte addr reg v e].
Proof.
  intros E.
  destruct (bus_ReadByteFromReg_run addr reg st) as (v' & e' & st1 & E1 & L & R & F & _).
  rewrite E1 in E. injection E as <- <- <-. auto.
Qed.

Lemma velocity_no_wrap (raw scale : Z) :
  0 <= raw < 256 -> 0 <= scale < 256 ->
  int16 (Z.quot (int8 raw * scale) 20) = Z.quot (signed8 raw * scale) 20.
Proof.
  intros Hr Hs. rewrite (int8_of_byte raw Hr). fold (signed8 raw).
  assert (Hv : -128 <= signed8 raw <= 127).
  { unfold signed8. destruct (Z.ltb_spec raw 128); lia. }
  apply int16_small.
  assert (Hp : -32640 <= signed8 raw * scale <= 32385) by nia.
  generalize dependent (signed8 raw * scale). intros p Hp.
  Z.to_euclidean_division_equations. lia.
Qed.

(** C1: when the readiness wait ends without a fatal error and the reads of
    the control register, of the scale (the interval register if the
    custom-interval bit is set, else the default 0xc8) and of the raw
    velocity register all succeed, ReadVelocity returns the raw byte read as
    a signed 8-bit integer, times the scale, divided by 20 with truncation,
    along with the wait's health error; raw 0xFF with scale 200 gives -10
    and raw 0x7F with scale 20 gives 127. *)
Theorem ReadVelocity_decodes :
  (forall fuel ls (st : St W) herr st1 control st2 scale st3 raw st4,
      waitAcquisitionReady fuel ls st = Some (herr, st1) ->
      fatal herr = false ->
      bus_ReadByteFromReg (address ls) modeControlRegister st1
      = Some ((control, None), st2) ->
      (if Z.land control customAcquisitionInterval =? 0
       then ret (defaultIntervalValue, None) st2
       else bus_ReadByteFromReg (address ls) 0x45 st2)
      = Some ((scale, None), st3) ->
      bus_ReadByteFromReg (address ls) 0x09 st3 = Some ((raw, None), st4) ->
      ReadVelocity fuel ls st
      = Some ((Z.quot (signed8 raw * scale) 20, herr), st4)) /\
  Z.quot (signed8 0xFF * 200) 20 = -10 /\
  Z.quot (signed8 0x7F * 20) 20 = 127.
Proof.
  split; [|split; reflexivity].
  intros fuel ls st herr st1 control st2 scale st3 raw st4 Ew F Ec Es Er.
  unfold ReadVelocity, bind. rewrite Ew, F, Ec. cbv beta iota. cbn [is_nil negb].
  assert (Hs : 0 <= scale < 256).
  { destruct (Z.land control customAcquisitionInterval =? 0).
    - unfold ret in Es. injection Es as <- _. unfold defaultIntervalValue. lia.
    - apply bus_ReadByteFromReg_range in Es. apply Es. }
  assert (Es' : (if negb (Z.land control customAcquisitionInterval =? 0)
                 then bus_ReadByteFromReg (address ls) 0x45
                 else ret (byte defaultIntervalValue, None)) st2
                = Some ((scale, None), st3)).
  { destruct (Z.land control customAcquisitionInterval =? 0); exact Es. }
  rewrite Es'. cbv beta iota. cbn [is_nil negb]. rewrite Er.
  cbv beta iota zeta. cbn [is_nil negb]. unfold ret.
  apply bus_ReadByteFromReg_range in Er.
  rewrite velocity_no_wrap; [reflexivity | apply Er | exact Hs].
Qed.

(** C8: in an execution of ReadVelocity that succeeds (its error is nil or a
    HealthError), the control register is read after the wait; if its
    custom-interval bit is set the interval register (0x45) is read next and
    its answer is the scale, and if the bit is clear no read of 0x45 occurs
    and the scale is the default 0xc8; the raw velocity register is read
    last and the value is computed from it with that scale. *)
Theorem ReadVelocity_scale_source fuel ls (st : St W) value err st' :
  ReadVelocity fuel ls st = Some ((value, err), st') ->
  fatal err = false ->
  exists st1 control scale raw,
    waitAcquisitionReady fuel ls st = Some (err, st1) /\
    (Z.land control customAcquisitionInterval <> 0 ->
     log st' = log st1 ++
       [EvReadByte (address ls) modeControlRegister control None;
        EvReadByte (address ls) 0x45 scale None;
        EvReadByte (address ls) 0x09 raw None]) /\
    (Z.land control customAcquisitionInterval = 0 ->
     scale = 0xc8 /\
     log st' = log st1 ++
       [EvReadByte (address ls) modeControlRegister control None;
        EvReadByte (address ls) 0x09 raw None]) /\
    value = int16 (Z.quot (int8 raw * scale) 20).
Proof.
  unfold ReadVelocity, bind. intros E F.
  destruct (waitAcquisitionReady fuel ls st) as [[herr st1]|]; [|discriminate].
  destruct (fatal herr) eqn:Fh.
  { injection E as _ <- _. congruence. }
  destruct (bus_ReadByteFromReg (address ls) modeControlRegister st1)
    as [[[control ec] st2]|] eqn:Ec; [|discriminate].
  apply bus_ReadByteFromReg_range in Ec. destruct Ec as (_ & Fc & Lc).
  cbv beta iota in E. destruct Fc as [->|[s ->]]; cbn [is_nil negb] in E.
  2: { injection E as _ <- _. discriminate. }
  destruct (Z.eqb_spec (Z.land control customAcquisitionInterval) 0) as [C0|C1];
    cbn [negb] in E.
  - unfold ret at 1 in E. cbv beta iota in E. cbn [is_nil negb] in E.
    destruct (bus_ReadByteFromReg (address ls) 0x09 st2)
      as [[[raw er] st3]|] eqn:Er; [|discriminate].
    apply bus_ReadByteFromReg_range in Er. destruct Er as (_ & Fr & Lr).
    cbv beta iota in E. destruct Fr as [->|[s ->]]; cbn [is_nil negb] in E.
    2: { injection E as _ <- _. discriminate. }
    injection E as <- <- <-.
    exists st1, control, (byte defaultIntervalValue), raw.
    split; [reflexivity|]. split; [intros N; contradiction|].
    split; [|reflexivity]. intros _. split; [reflexivity|].
    rewrite Lr, Lc, <- app_assoc. reflexivity.
  - destruct (bus_ReadByteFromReg (address ls) 0x45 st2)
      as [[[scale es] st3]|] eqn:Es; [|discriminate].
    apply bus_ReadByteFromReg_range in Es. destruct Es as (_ & Fs & Ls).
    cbv beta iota in E. destruct Fs as [->|[s ->]]; cbn [is_nil negb] in E.
    2: { injection E as _ <- _. discriminate. }
    destruct (bus_ReadByteFromReg (address ls) 0x09 st3)
      as [[[raw er] st4]|] eqn:Er; [|discriminate].
    apply bus_ReadByteFromReg_range in Er. destruct Er as (_ & Fr & Lr).
    cbv beta iota in E. destruct Fr as [->|[s ->]]; cbn [is_nil negb] in E.
    2: { injection E as _ <- _. discriminate. }
    injection E as <- <- <-.
    exists st1, control, scale, raw.
    split; [reflexivity|]. split; [|split; [intros N; contradiction | reflexivity]].
    intros _. rewrite Lr, Ls, Lc, <- !app_assoc. reflexivity.
Qed.

End Reading.

Lemma ReadDistance_soft_fail_witness :
  (exists st', ReadDistance 5 Sim.quick (Sim.boot [(0x01, 0x10); (0x8f, 321)] [] [])
               = Some ((321, Some (HealthError 0)), st')) /\
  (exists st', ReadDistance 5 Sim.quick (Sim.boot [(0x01, 0x40); (0x8f, 321)] [] [])
               = Some ((0, Some measurementError), st') /\
               log st' = [EvReadByte 0x62 0x01 0x40 None;
                          EvReadByte 0x62 0x48 0 None]).
Proof.
  split.
  - destruct (waitAcquisitionReady 5 Sim.quick
                (Sim.boot [(0x01, 0x10); (0x8f, 321)] [] []))
      as [[herr st1]|] eqn:E; [|vm_compute in E; discriminate].
    destruct (ReadDistance_soft_fail 5 Sim.quick _ herr st1 E) as [S _].
    vm_compute in E. injection E as <- <-.
    destruct (S 0 eq_refl) as (value & e & st2 & E2 & _ & R).
    vm_compute in E2. injection E2 as <- <- <-.
    eexists. exact R.
  - destruct (waitAcquisitionReady 5 Sim.quick
                (Sim.boot [(0x01, 0x40); (0x8f, 321)] [] []))
      as [[herr st1]|] eqn:E; [|vm_compute in E; discriminate].
    destruct (ReadDistance_soft_fail 5 Sim.quick _ herr st1 E) as (_ & F & _).
    vm_compute in E. injection E as <- <-.
    eexists. split; [apply (F measurementError); reflexivity | reflexivity].
Defined.

Lemma waitAcquisitionReady_precedence_witness :
  exists st2,
    waitAcquisitionReady 5 Sim.quick (Sim.boot [(0x01, 0x40)] [] [])
    = Some (Some measurementError, st2).
Proof.
  destruct (waitReadyStatus 5 Sim.quick (Sim.boot [(0x01, 0x40)] [] []))
    as [[[status err] st1]|] eqn:E; [|vm_compute in E; discriminate].
  assert (N : err = None) by (vm_compute in E; congruence). subst err.
  destruct (waitAcquisitionReady_precedence 5 Sim.quick _ status st1 E)
    as (err & st2 & R & _ & _ & M & _).
  vm_compute in E. injection E as <- <-.
  exists st2. rewrite R, (M eq_refl ltac:(vm_compute; discriminate)).
  reflexivity.
Defined.

Lemma ReadVelocity_decodes_witness :
  (exists st', ReadVelocity 5 Sim.quick
                 (Sim.boot [(0x01, 0x20); (0x04, 0); (0x09, 0xFF)] [] [])
               = Some ((-10, None), st')) /\
  (exists st', ReadVelocity 5 Sim.quick
                 (Sim.boot [(0x01, 0x20); (0x04, 0x20); (0x45, 20); (0x09, 0x7F)] [] [])
               = Some ((127, None), st')).
Proof.
  destruct (ReadVelocity_decodes (W := Sim.Device)) as [D _].
  split.
  - destruct (waitAcquisitionReady 5 Sim.quick
                (Sim.boot [(0x01, 0x20); (0x04, 0); (0x09, 0xFF)] [] []))
      as [[herr st1]|] eqn:Ew; [|vm_compute in Ew; discriminate].
    pose proof Ew as Ew'. vm_compute in Ew'. injection Ew' as <- <-.
    match type of Ew with _ = Some (_, ?s1) =>
      destruct (bus_ReadByteFromReg (address Sim.quick) modeControlRegister s1)
        as [[[control ec] st2]|] eqn:Ec; [|vm_compute in Ec; discriminate]
    end.
    pose proof Ec as Ec'. vm_compute in Ec'. injection Ec' as <- <- <-.
    match type of Ec with _ = Some (_, ?s2) =>
      destruct (bus_ReadByteFromReg (address Sim.quick) 0x09 s2)
        as [[[raw er] st4]|] eqn:Er; [|vm_compute in Er; discriminate]
    end.
    pose proof Er as Er'. vm_compute in Er'. injection Er' as <- <- <-.
    eexists. apply (D 5%nat Sim.quick _ _ _ _ _ _ _ _ _ Ew eq_refl Ec eq_refl Er).
  - destruct (waitAcquisitionReady 5 Sim.quick
                (Sim.boot [(0x01, 0x20); (0x04, 0x20); (0x45, 20); (0x09, 0x7F)] [] []))
      as [[herr st1]|] eqn:Ew; [|vm_compute in Ew; discriminate].
    pose proof Ew as Ew'. vm_compute in Ew'. injection Ew' as <- <-.
    match type of Ew with _ = Some (_, ?s1) =>
      destruct (bus_ReadByteFromReg (address Sim.quick) modeControlRegister s1)
        as [[[control ec] st2]|] eqn:Ec; [|vm_compute in Ec; discriminate]
    end.
    pose proof Ec as Ec'. vm_compute in Ec'. injection Ec' as <- <- <-.
    match type of Ec with _ = Some (_, ?s2) =>
      destruct (bus_ReadByteFromReg (address Sim.quick) 0x45 s2)
        as [[[scale es] st3]|] eqn:Es; [|vm_compute in Es; discriminate]
    end.
    pose proof Es as Es'. vm_compute in Es'. injection Es' as <- <- <-.
    match type of Es with _ = Some (_, ?s3) =>
      destruct (bus_ReadByteFromReg (address Sim.quick) 0x09 s3)
        as [[[raw er] st4]|] eqn:Er; [|vm_compute in Er; discriminate]
    end.
    pose proof Er as Er'. vm_compute in Er'. injection Er' as <- <- <-.
    eexists. apply (D 5%nat Sim.quick _ _ _ _ _ _ _ _ _ Ew eq_refl Ec Es Er).
Defined.

Lemma ReadVelocity_scale_source_witness :
  exists st' st1 control scale raw,
    ReadVelocity 5 Sim.quick
      (Sim.boot [(0x01, 0x20); (0x04, 0x20); (0x45, 20); (0x09, 0x7F)] [] [])
    = Some ((127, None), st') /\
    waitAcquisitionReady 5 Sim.quick
      (Sim.boot [(0x01, 0x20); (0x04, 0x20); (0x45, 20); (0x09, 0x7F)] [] [])
    = Some (None, st1) /\
    (Z.land control customAcquisitionInterval <> 0 ->
     log st' = log st1 ++
       [EvReadByte (address Sim.quick) modeControlRegister control None;
        EvReadByte (address Sim.quick) 0x45 scale None;
        EvReadByte (address Sim.quick) 0x09 raw None]) /\
    (Z.land control customAcquisitionInterval = 0 ->
     scale = 0xc8 /\
     log st' = log st1 ++
       [EvReadByte (address Sim.quick) modeControlRegister control None;
        EvReadByte (address Sim.quick) 0x09 raw None]) /\
    127 = int16 (Z.quot (int8 raw * scale) 20).
Proof.
  destruct (ReadVelocity 5 Sim.quick
      (Sim.boot [(0x01, 0x20); (0x04, 0x20); (0x45, 20); (0x09, 0x7F)] [] []))
    as [[[value err] st']|] eqn:E; [|vm_compute in E; discriminate].
  pose proof E as E'. vm_compute in E'. injection E' as <- <- <-.
  destruct (ReadVelocity_scale_source 5 Sim.quick _ _ _ _ E eq_refl)
    as (st1 & control & scale & raw & P).
  eexists _, st1, control, scale, raw. split; [reflexivity | exact P].
Defined.

Lemma GetDistance_terminates_witness :
  exists value err st' e0 st0,
    GetDistance 5 Sim.quick Sim.stuck = Some ((value, err), st') /\
    setAcquisitionCount Sim.quick 0 Sim.stuck = Some (e0, st0) /\
    log st0 = log Sim.stuck ++ [EvWriteByte (address Sim.quick) 0x11 0 e0] /\
    (e0 <> None -> value = 0 /\ err = e0 /\ st' = st0) /\
    (e0 = None ->
     turns 5 Sim.quick (now (world Sim.stuck)) 0 st0 (value, err) st' /\
     (err <> None ->
      WaitTimeout Sim.quick
      <= saturate (now (world st') - now (world Sim.stuck)))).
Proof.
  apply (GetDistance_terminates Sim.transfer_time (T := Sim_Ticking) Sim.quick 5%nat).
  - vm_compute. discriminate.
  - lia.
  - vm_compute. discriminate.
Defined.

(** C9, as stated, fails: with the default two-second timeout and a sensor
    that stays busy, the poll inside Acquire sleeps 1, 2, 4, ... 1024 ms, and
    GetDistance returns the timeout error 2.047013 s after its start. *)
Lemma GetDistance_exceeds_WaitTimeout :
  exists value st',
    GetDistance 20 (NewLidar DefaultAddress) Sim.stuck
    = Some ((value, Some timeoutError), st') /\
    now (world st') - now (world Sim.stuck) = 2047013000 /\
    ~ now (world st') - now (world Sim.stuck)
      <= WaitTimeout (NewLidar DefaultAddress).
Proof.
  eexists _, _. split; [vm_compute; reflexivity|].
  split; [reflexivity|]. vm_compute. intros N. apply N. reflexivity.
Qed.

(** * Further properties of the driver *)

(** ** Custom intervals *)

Section CustomInterval.

Context {W : Type} `{World W}.

Lemma custom_control_bits (control : Z) (velocity : bool) :
  let value :=
    Z.lor (if velocity then Z.lor control velocityModeEnabled
           else Z.ldiff control velocityModeEnabled)
          customAcquisitionInterval in
  Z.testbit value 5 = true /\ Z.testbit value 7 = velocity /\
  forall n, n <> 5 -> n <> 7 -> Z.testbit value n = Z.testbit control n.
Proof.
  unfold velocityModeEnabled, customAcquisitionInterval.
  rewrite !Z.shiftl_1_l. cbv zeta.
  assert (P : forall k n, 0 <= k -> Z.testbit (2 ^ k) n = (k =? n)).
  { intros k n Hk. destruct (Z.ltb_spec n 0).
    - rewrite Z.testbit_neg_r by assumption. symmetry. apply Z.eqb_neq. lia.
    - apply Z.pow2_bits_eqb. assumption. }
  destruct velocity;
    repeat split; intros;
    rewrite ?Z.lor_spec, ?Z.ldiff_spec, ?Z.lor_spec, !P by lia;
    repeat match goal with
           | |- context [?a =? ?b] =>
               let E := fresh in destruct (Z.eqb_spec a b) as [E|E]; try lia
           end;
    simpl; rewrite ?andb_true_r, ?andb_false_r, ?orb_true_r, ?orb_false_r;
    reflexivity.
Qed.

(** With an interval other than the default whose translated value is in
    range, setAcquisitionInterval reads the control register, then writes
    the translated value to the interval register (0x45), then writes the
    control register with the custom-interval bit set and the velocity bit
    as asked.  A failed transfer ends the call with its error: after a
    failed control read nothing is written, after a failed interval write
    the control register is not written, and a failed control write leaves
    the interval register already written. *)
Theorem setAcquisitionInterval_custom
  (ls : Lidar) (interval : Z) (velocity : bool) (st : St W) :
  interval <> DefaultAcquisitionInterval ->
  minIntervalValue <= translatedInterval interval <= maxIntervalValue ->
  exists control e0 err st',
    setAcquisitionInterval ls interval velocity st = Some (err, st') /\
    ((e0 <> None /\ err = e0 /\
      log st' = log st ++ [EvReadByte (address ls) modeControlRegister control e0])
     \/
     (e0 = None /\ exists e1,
        (e1 <> None /\ err = e1 /\
         log st' = log st ++
           [EvReadByte (address ls) modeControlRegister control None;
            EvWriteByte (address ls) 0x45 (translatedInterval interval) e1])
        \/
        (e1 = None /\ exists value,
           log st' = log st ++
             [EvReadByte (address ls) modeControlRegister control None;
              EvWriteByte (address ls) 0x45 (translatedInterval interval) None;
              EvWriteByte (address ls) modeControlRegister value err] /\
           Z.testbit value 5 = true /\ Z.testbit value 7 = velocity /\
           forall n, n <> 5 -> n <> 7 ->
                     Z.testbit value n = Z.testbit control n))).
Proof.
  intros Hd Hr. unfold setAcquisitionInterval, bind, ret.
  destruct (bus_ReadByteFromReg_run (address ls) modeControlRegister st)
    as (control & e0 & st1 & E1 & L1 & _).
  rewrite E1. exists control, e0.
  destruct e0 as [e0|]; cbn [is_nil negb].
  - eexists _, _. split; [reflexivity|]. left.
    repeat split; [discriminate | assumption].
  - apply Z.eqb_neq in Hd. rewrite Hd. cbv zeta.
    assert (G : (translatedInterval interval <? minIntervalValue)
                || (translatedInterval interval >? maxIntervalValue) = false).
    { apply orb_false_iff. split.
      - apply Z.ltb_ge. apply Hr.
      - rewrite Z.gtb_ltb. apply Z.ltb_ge. apply Hr. }
    rewrite G.
    assert (Hb : byte (translatedInterval interval) = translatedInterval interval).
    { unfold byte. apply Z.mod_small.
      unfold minIntervalValue, maxIntervalValue in Hr. lia. }
    rewrite Hb.
    destruct (bus_WriteByteToReg_run (address ls) 0x45
                (translatedInterval interval) st1)
      as (e1 & st2 & E2 & L2 & _).
    rewrite E2. destruct e1 as [e1|]; cbn [is_nil negb].
    + eexists _, _. split; [reflexivity|]. right. split; [reflexivity|].
      exists (Some e1). left. split; [discriminate|]. split; [reflexivity|].
      rewrite L2, L1, <- app_assoc. reflexivity.
    + match goal with |- context [bus_WriteByteToReg ?a ?r ?v st2] =>
        destruct (bus_WriteByteToReg_run a r v st2) as (e2 & st3 & E3 & L3 & _);
        rewrite E3; pose proof (custom_control_bits control velocity) as B
      end.
      exists e2, st3. split; [destruct e2; reflexivity|]. right.
      split; [reflexivity|]. exists None. right. split; [reflexivity|].
      eexists. split; [|exact B].
      rewrite L3, L2, L1, <- !app_assoc. reflexivity.
Qed.

End CustomInterval.

Lemma setAcquisitionInterval_custom_witness :
  exists control e0 err st',
    setAcquisitionInterval Sim.quick (10 * Millisecond) true (Sim.boot [] [] [])
    = Some (err, st') /\
    ((e0 <> None /\ err = e0 /\
      log st' = log (Sim.boot [] [] []) ++
        [EvReadByte (address Sim.quick) modeControlRegister control e0])
     \/
     (e0 = None /\ exists e1,
        (e1 <> None /\ err = e1 /\
         log st' = log (Sim.boot [] [] []) ++
           [EvReadByte (address Sim.quick) modeControlRegister control None;
            EvWriteByte (address Sim.quick) 0x45
              (translatedInterval (10 * Millisecond)) e1])
        \/
        (e1 = None /\ exists value,
           log st' = log (Sim.boot [] [] []) ++
             [EvReadByte (address Sim.quick) modeControlRegister control None;
              EvWriteByte (address Sim.quick) 0x45
                (translatedInterval (10 * Millisecond)) None;
              EvWriteByte (address Sim.quick) modeControlRegister value err] /\
           Z.testbit value 5 = true /\ Z.testbit value 7 = true /\
           forall n, n <> 5 -> n <> 7 ->
                     Z.testbit value n = Z.testbit control n))).
Proof.
  apply (setAcquisitionInterval_custom Sim.quick (10 * Millisecond) true).
  - vm_compute. discriminate.
  - vm_compute. split; discriminate.
Defined.

(** ** Which intervals are accepted *)

(** As long as doubling the duration does not overflow int64, the range
    check of setAcquisitionInterval accepts exactly the durations from one
    millisecond up to, but not including, 128 milliseconds. *)
Theorem translatedInterval_accepts (d : Z) :
  minDuration <= d * 2 <= maxDuration ->
  (minIntervalValue <= translatedInterval d <= maxIntervalValue
   <-> Millisecond <= d < 128 * Millisecond).
Proof.
  intros Ho. rewrite (translatedInterval_exact d Ho).
  unfold minIntervalValue, maxIntervalValue, Millisecond.
  Z.to_euclidean_division_equations. lia.
Qed.

Lemma translatedInterval_accepts_witness :
  minIntervalValue <= translatedInterval (127 * Millisecond + 999999)
  <= maxIntervalValue
  <-> Millisecond <= 127 * Millisecond + 999999 < 128 * Millisecond.
Proof.
  apply (translatedInterval_accepts (127 * Millisecond + 999999)).
  vm_compute. split; discriminate.
Defined.

(** The doubling wraps for durations near the int64 minimum, and the range
    check then sees the duration shifted by 2^63: a negative duration
    between minDuration + 1 ms and minDuration + 128 ms passes the check. *)
Theorem translatedInterval_wraps (d : Z) :
  minDuration + Millisecond <= d < minDuration + 128 * Millisecond ->
  translatedInterval d = Z.quot ((d - minDuration) * 2) 1000000 /\
  minIntervalValue <= translatedInterval d <= maxIntervalValue.
Proof.
  unfold minDuration, Millisecond, minIntervalValue, maxIntervalValue.
  intros Hd.
  assert (E : translatedInterval d
              = Z.quot ((d - - 9223372036854775808) * 2) 1000000).
  { unfold translatedInterval, int64. f_equal.
    replace (d * 2 + 9223372036854775808)
      with ((d * 2 + 9223372036854775808 + 18446744073709551616)
            + (-1) * 18446744073709551616) by lia.
    rewrite Z.mod_add by lia. rewrite Z.mod_small; lia. }
  split; [exact E|]. rewrite E.
  Z.to_euclidean_division_equations. lia.
Qed.

Lemma translatedInterval_wraps_witness :
  translatedInterval (minDuration + 10 * Millisecond)
  = Z.quot ((minDuration + 10 * Millisecond - minDuration) * 2) 1000000 /\
  minIntervalValue <= translatedInterval (minDuration + 10 * Millisecond)
  <= maxIntervalValue.
Proof.
  apply (translatedInterval_wraps (minDuration + 10 * Millisecond)).
  vm_compute. split; [discriminate | reflexivity].
Defined.

(** Round trip from a register value: the duration that the exported
    constants attach to a value in [minIntervalValue, maxIntervalValue]
    translates back to that value with its lowest bit cleared, which is
    again in range; an even value comes back unchanged. *)
Theorem intervalOfValue_translated (v : Z) :
  minIntervalValue <= v <= maxIntervalValue ->
  translatedInterval (intervalOfValue v) = 2 * (v / 2) /\
  minIntervalValue <= translatedInterval (intervalOfValue v) <= maxIntervalValue /\
  (Z.even v = true -> translatedInterval (intervalOfValue v) = v).
Proof.
  unfold minIntervalValue, maxIntervalValue. intros Hv.
  assert (E : translatedInterval (intervalOfValue v) = 2 * (v / 2)).
  { unfold intervalOfValue, Millisecond. rewrite Z.shiftr_div_pow2 by lia.
    change (2 ^ 1) with 2.
    assert (Hq : 1 <= v / 2 <= 127)
      by (Z.to_euclidean_division_equations; lia).
    rewrite translatedInterval_exact
      by (unfold minDuration, maxDuration; lia).
    replace (v / 2 * 1000000 * 2) with (2 * (v / 2) * 1000000) by lia.
    apply Z.quot_mul. lia. }
  rewrite E. split; [reflexivity|]. split.
  - Z.to_euclidean_division_equations. lia.
  - intros Hev. apply Z.even_spec in Hev. destruct Hev as [k ->].
    replace (2 * k) with (k * 2) by lia. rewrite Z.div_mul by lia. lia.
Qed.

Lemma intervalOfValue_translated_witness :
  translatedInterval (intervalOfValue maxIntervalValue) = 2 * (maxIntervalValue / 2) /\
  minIntervalValue <= translatedInterval (intervalOfValue maxIntervalValue)
  <= maxIntervalValue /\
  (Z.even maxIntervalValue = true ->
   translatedInterval (intervalOfValue maxIntervalValue) = maxIntervalValue).
Proof.
  apply (intervalOfValue_translated maxIntervalValue).
  vm_compute. split; discriminate.
Defined.

(** ** Operations that only read *)

Section ReadOnly.

Context {W : Type} `{World W}.

Lemma quiet_ret {A} (a : A) : quiet (W:=W) (ret a).
Proof. intros st a' st' E. injection E as _ <-. reflexivity. Qed.

Lemma quiet_bind {A B} (m : M W A) (f : A -> M W B) :
  quiet m -> (forall a, quiet (f a)) -> quiet (bind m f).
Proof.
  intros Hm Hf st b st' E. unfold bind in E.
  destruct (m st) as [[a st1]|] eqn:E1; [|discriminate].
  apply Hm in E1. apply Hf in E. congruence.
Qed.

Lemma quiet_ReadByte addr reg : quiet (bus_ReadByteFromReg addr reg).
Proof.
  intros st a st' E.
  destruct (bus_ReadByteFromReg_run addr reg st) as (v & e & st1 & E1 & L & _).
  rewrite E1 in E. injection E as _ <-. rewrite L, writes_app. apply app_nil_r.
Qed.

Lemma quiet_ReadWord addr reg : quiet (bus_ReadWordFromReg addr reg).
Proof.
  intros st a st' E.
  destruct (bus_ReadWordFromReg_run addr reg st) as (v & e & st1 & E1 & L & _).
  rewrite E1 in E. injection E as _ <-. rewrite L, writes_app. apply app_nil_r.
Qed.

Lemma quiet_Now : quiet (W:=W) time_Now.
Proof. intros st a st' E. injection E as _ <-. reflexivity. Qed.

Lemma quiet_Since t : quiet (W:=W) (time_Since t).
Proof. intros st a st' E. injection E as _ <-. reflexivity. Qed.

Lemma quiet_Sleep d : quiet (W:=W) (time_Sleep d).
Proof.
  intros st a st' E. injection E as _ <-. cbn [log].
  rewrite writes_app. apply app_nil_r.
Qed.

Ltac hush :=
  repeat first
    [ apply quiet_ret
    | apply quiet_Now
    | apply quiet_Since
    | apply quiet_Sleep
    | apply quiet_ReadByte
    | apply quiet_ReadWord
    | assumption
    | apply quiet_bind; [|intros ?]
    | match goal with
      | |- quiet (match ?x with _ => _ end) => destruct x
      end ].

Lemma quiet_waitReadyStatus_loop (fuel : nat) :
  forall ls startedAt backoff,
    quiet (waitReadyStatus_loop fuel ls startedAt backoff).
Proof.
  induction fuel as [|fuel IH]; intros ls startedAt backoff.
  - intros st a st' E. discriminate.
  - cbn [waitReadyStatus_loop]. unfold GetStatus.
    pose proof (IH ls startedAt (int64 (backoff * 2))). hush.
Qed.

Lemma quiet_waitReadyStatus fuel ls : quiet (waitReadyStatus fuel ls).
Proof.
  unfold waitReadyStatus. apply quiet_bind; [apply quiet_Now|].
  intros a. apply quiet_waitReadyStatus_loop.
Qed.

Lemma quiet_waitAcquisitionReady fuel ls : quiet (waitAcquisitionReady fuel ls).
Proof.
  pose proof (quiet_waitReadyStatus fuel ls).
  unfold waitAcquisitionReady. hush.
Qed.

Lemma quiet_waitReadyForCommand fuel ls : quiet (waitReadyForCommand fuel ls).
Proof.
  pose proof (quiet_waitReadyStatus fuel ls).
  unfold waitReadyForCommand. hush.
Qed.

Lemma quiet_ReadDistance fuel ls : quiet (ReadDistance fuel ls).
Proof.
  pose proof (quiet_waitAcquisitionReady fuel ls).
  unfold ReadDistance. hush.
Qed.

(** GetStatus, GetVersion, the readiness waits, ReadDistance and
    ReadVelocity never write a register: whatever they return, the writes
    in the log are the ones that were there before. *)
Theorem reads_never_write (fuel : nat) (ls : Lidar) :
  quiet (GetStatus ls) /\
  quiet (GetVersion ls) /\
  quiet (waitReadyForCommand fuel ls) /\
  quiet (waitAcquisitionReady fuel ls) /\
  quiet (ReadDistance fuel ls) /\
  quiet (ReadVelocity fuel ls).
Proof.
  pose proof (quiet_waitReadyStatus fuel ls).
  pose proof (quiet_waitAcquisitionReady fuel ls).
  repeat split.
  - unfold GetStatus. hush.
  - unfold GetVersion. hush.
  - apply quiet_waitReadyForCommand.
  - assumption.
  - apply quiet_ReadDistance.
  - unfold ReadVelocity. hush.
Qed.

End ReadOnly.

Lemma reads_never_write_witness :
  exists r st',
    ReadDistance 5 Sim.quick (Sim.boot [(0x01, 0x20); (0x8f, 321)] [] [])
    = Some (r, st') /\
    writes (log st') = writes (log (Sim.boot [(0x01, 0x20); (0x8f, 321)] [] [])).
Proof.
  destruct (ReadDistance 5 Sim.quick (Sim.boot [(0x01, 0x20); (0x8f, 321)] [] []))
    as [[r st']|] eqn:E; [|vm_compute in E; discriminate].
  exists r, st'. split; [reflexivity|].
  destruct (reads_never_write (W := Sim.Device) 5 Sim.quick)
    as (_ & _ & _ & _ & Q & _).
  exact (Q _ _ _ E).
Defined.

(** ** What GetDistance writes *)

Section Writes.

Context {W : Type} `{World W}.

Lemma writes_only_quiet {A} (P : Event -> Prop) (m : M W A) :
  quiet m -> writes_only P m.
Proof.
  intros Q st a st' E. exists []. rewrite app_nil_r.
  split; [exact (Q _ _ _ E) | constructor].
Qed.

Lemma writes_only_bind {A B} (P : Event -> Prop) (m : M W A) (f : A -> M W B) :
  writes_only P m -> (forall a, writes_only P (f a)) -> writes_only P (bind m f).
Proof.
  intros Hm Hf st b st' E. unfold bind in E.
  destruct (m st) as [[a st1]|] eqn:E1; [|discriminate].
  destruct (Hm _ _ _ E1) as (n1 & L1 & F1).
  destruct (Hf _ _ _ _ E) as (n2 & L2 & F2).
  exists (n1 ++ n2). rewrite L2, L1, app_assoc.
  split; [reflexivity | apply Forall_app; auto].
Qed.

Lemma writes_only_WriteByte (P : Event -> Prop) addr reg value :
  (forall e, P (EvWriteByte addr reg value e)) ->
  writes_only P (bus_WriteByteToReg addr reg value).
Proof.
  intros HP st a st' E.
  destruct (bus_WriteByteToReg_run addr reg value st) as (e & st1 & E1 & L & _).
  rewrite E1 in E. injection E as _ <-.
  exists [EvWriteByte addr reg value e]. rewrite L, writes_app.
  split; [reflexivity | constructor; [apply HP | constructor]].
Qed.

Lemma Acquire_writes_only fuel ls :
  writes_only is_acquire (Acquire fuel ls true).
Proof.
  unfold Acquire. apply writes_only_bind.
  - apply writes_only_quiet. apply quiet_waitReadyForCommand.
  - intros err. destruct (negb (is_nil err)).
    + apply writes_only_quiet. apply quiet_ret.
    + apply writes_only_WriteByte. intros e. reflexivity.
Qed.

Lemma GetDistance_attempt_writes_only fuel ls value :
  writes_only is_acquire (GetDistance_attempt fuel ls value).
Proof.
  unfold GetDistance_attempt. apply writes_only_bind.
  - apply Acquire_writes_only.
  - intros err. destruct (is_nil err); apply writes_only_quiet.
    + apply quiet_ReadDistance.
    + apply quiet_ret.
Qed.

Lemma GetDistance_loop_writes_only (n : nat) :
  forall fuel ls startedAt value,
    writes_only is_acquire (GetDistance_loop n fuel ls startedAt value).
Proof.
  induction n as [|n IH]; intros fuel ls startedAt value.
  - intros st a st' E. discriminate.
  - cbn [GetDistance_loop]. apply writes_only_bind.
    + apply GetDistance_attempt_writes_only.
    + intros [v err]. destruct (is_nil err).
      * apply writes_only_quiet. apply quiet_ret.
      * apply writes_only_bind.
        -- apply writes_only_quiet. apply quiet_Since.
        -- intros elapsed. destruct (elapsed >=? WaitTimeout ls).
           ++ apply writes_only_quiet. apply quiet_ret.
           ++ apply IH.
Qed.

(** Whatever GetDistance returns, its first register write is 0 to the
    count register (0x11) and every write after it is the acquire command
    with stabilization, 0x04 to register 0x00: it never touches the control
    or interval registers and never issues the plain acquire 0x03. *)
Theorem GetDistance_writes fuel ls (st : St W) r st' :
  GetDistance fuel ls st = Some (r, st') ->
  exists e0 commands,
    writes (log st')
    = writes (log st) ++ EvWriteByte (address ls) 0x11 0 e0 :: commands /\
    Forall is_acquire commands.
Proof.
  unfold GetDistance, bind, time_Now, setAcquisitionCount. intros E.
  destruct (bus_WriteByteToReg_run (address ls) 0x11 0 st)
    as (e0 & st0 & E0 & L0 & _).
  rewrite E0 in E. exists e0.
  assert (L : writes (log st0)
              = writes (log st) ++ [EvWriteByte (address ls) 0x11 0 e0]).
  { rewrite L0, writes_app. reflexivity. }
  destruct (negb (is_nil e0)).
  - injection E as _ <-. exists []. split; [exact L | constructor].
  - destruct (GetDistance_loop_writes_only _ _ _ _ _ _ _ _ E) as (new & Ln & F).
    exists new. rewrite Ln, L, <- app_assoc. split; [reflexivity | exact F].
Qed.

End Writes.

Lemma GetDistance_writes_witness :
  exists r st' e0 commands,
    GetDistance 5 Sim.quick (Sim.boot [(0x01, 0x40)] [] []) = Some (r, st') /\
    writes (log st')
    = writes (log (Sim.boot [(0x01, 0x40)] [] []))
      ++ EvWriteByte (address Sim.quick) 0x11 0 e0 :: commands /\
    Forall is_acquire commands.
Proof.
  destruct (GetDistance 5 Sim.quick (Sim.boot [(0x01, 0x40)] [] []))
    as [[r st']|] eqn:E; [|vm_compute in E; discriminate].
  destruct (GetDistance_writes 5 Sim.quick _ r st' E) as (e0 & commands & P).
  exists r, st', e0, commands. split; [reflexivity | exact P].
Defined.

(** ** Acquire, health detail, version, wake and reset *)

Section Commands.

Context {W : Type} `{World W}.

Lemma Acquire_after_poll fuel ls (stablizePreamp : bool) (st : St W) status err st1 :
  waitReadyStatus fuel ls st = Some ((status, err), st1) ->
  (err <> None -> Acquire fuel ls stablizePreamp st = Some (err, st1)) /\
  (err = None ->
   exists e st2,
     Acquire fuel ls stablizePreamp st = Some (e, st2) /\
     log st2 = log st1 ++
       [EvWriteByte (address ls) 0x00 (if stablizePreamp then 0x04 else 0x03) e]).
Proof.
  intros E. unfold Acquire, waitReadyForCommand, bind. rewrite E.
  cbv beta iota. unfold ret at 1. split.
  - intros N. destruct err; [reflexivity | contradiction].
  - intros ->. cbn [is_nil negb]. cbv zeta.
    destruct (bus_WriteByteToReg_run (address ls) 0x00
                (if stablizePreamp then 0x04 else 0x03) st1)
      as (e & st2 & E2 & L2 & _).
    exists e, st2. split; assumption.
Qed.

(** Acquire sends at most one command.  Either it writes nothing and
    returns a non-nil error (the poll failed or timed out), or its single
    write is 0x04 (with stabilization) or 0x03 (without) to register 0x00
    and it returns that write's error.  So a nil result means the command
    was written exactly once.  The health and error bits of the status play
    no part: only Busy is waited for. *)
Theorem Acquire_sends_once fuel ls (stablizePreamp : bool) (st : St W) err st' :
  Acquire fuel ls stablizePreamp st = Some (err, st') ->
  (err <> None /\ writes (log st') = writes (log st))
  \/
  writes (log st')
  = writes (log st) ++
    [EvWriteByte (address ls) 0x00 (if stablizePreamp then 0x04 else 0x03) err].
Proof.
  intros E.
  destruct (waitReadyStatus fuel ls st) as [[[status perr] st1]|] eqn:Ep.
  2: { unfold Acquire, waitReadyForCommand, bind in E. rewrite Ep in E.
       discriminate. }
  pose proof (quiet_waitReadyStatus fuel ls _ _ _ Ep) as Q.
  destruct (Acquire_after_poll fuel ls stablizePreamp st status perr st1 Ep)
    as [F S].
  destruct perr as [pe|].
  - rewrite (F ltac:(discriminate)) in E. injection E as <- <-.
    left. split; [discriminate | exact Q].
  - destruct (S eq_refl) as (e & st2 & E2 & L2).
    rewrite E2 in E. injection E as <- <-.
    right. rewrite L2, writes_app, Q. reflexivity.
Qed.

(** When the status has Healthy set, waitAcquisitionReady does not read the
    health detail register.  When Healthy is clear it reads register 0x48
    exactly once and ignores that read's error: with no fatal bit set the
    HealthError carries the byte the bus returned, even from a failed
    read. *)
Theorem waitAcquisitionReady_health_detail fuel ls (st : St W) status st1 :
  waitReadyStatus fuel ls st = Some ((status, None), st1) ->
  (Z.land status Healthy <> 0 ->
   exists err, waitAcquisitionReady fuel ls st = Some (err, st1)) /\
  (Z.land status Healthy = 0 ->
   exists healthFlags e err st2,
     waitAcquisitionReady fuel ls st = Some (err, st2) /\
     log st2 = log st1 ++ [EvReadByte (address ls) 0x48 healthFlags e] /\
     (Z.land status ErrorDetected = 0 ->
      Z.land status SignalNotDetected = 0 ->
      err = Some (HealthError healthFlags))).
Proof.
  intros E. unfold waitAcquisitionReady, bind. rewrite E.
  cbv beta iota. cbn [is_nil]. split.
  - intros Hh. apply Z.eqb_neq in Hh. rewrite Hh. unfold ret.
    eexists. reflexivity.
  - intros Hh. apply Z.eqb_eq in Hh. rewrite Hh.
    destruct (bus_ReadByteFromReg_run (address ls) 0x48 st1)
      as (hf & e & st2 & E2 & L2 & _).
    rewrite E2. cbv beta iota. unfold ret.
    eexists hf, e, _, st2. split; [reflexivity|]. split; [exact L2|].
    intros He Hs. apply Z.eqb_eq in He, Hs. rewrite He, Hs.
    reflexivity.
Qed.

(** GetVersion reads the hardware revision (0x41) and, only if that read
    succeeded, the software revision (0x4f).  After a failed first read it
    returns that error with a zero software revision and register 0x4f is
    not read; the error of the second read is returned together with both
    values. *)
Theorem GetVersion_sequence ls (st : St W) :
  exists hw e1 sw err st',
    GetVersion ls st = Some ((hw, sw, err), st') /\
    ((e1 <> None /\ sw = 0 /\ err = e1 /\
      log st' = log st ++ [EvReadByte (address ls) 0x41 hw e1])
     \/
     (e1 = None /\
      log st' = log st ++ [EvReadByte (address ls) 0x41 hw None;
                           EvReadByte (address ls) 0x4f sw err])).
Proof.
  unfold GetVersion, bind.
  destruct (bus_ReadByteFromReg_run (address ls) 0x41 st)
    as (hw & e1 & st1 & E1 & L1 & _).
  rewrite E1. cbv beta iota. exists hw, e1.
  destruct e1 as [e1|]; cbn [is_nil].
  - unfold ret. eexists _, _, _. split; [reflexivity|]. left.
    repeat split; [discriminate | exact L1].
  - destruct (bus_ReadByteFromReg_run (address ls) 0x4f st1)
      as (sw & e2 & st2 & E2 & L2 & _).
    rewrite E2. cbv beta iota. unfold ret.
    exists sw, e2, st2. split; [reflexivity|]. right.
    split; [reflexivity|]. rewrite L2, L1, <- app_assoc. reflexivity.
Qed.

Lemma Reset_sequence fuel ls (st : St W) :
  exists status e0 e1 st1,
    Wake ls st = Some (e1, st1) /\
    log st1 = log st ++ [EvReadByte (address ls) 0x01 status e0;
                         EvWriteByte (address ls) 0x65 0x00 e1] /\
    (e1 <> None -> Reset fuel ls st = Some (e1, st1)) /\
    (e1 = None ->
     exists e2 st2,
       log st2 = log st1 ++ [EvWriteByte (address ls) 0x00 0x00 e2] /\
       (e2 <> None -> Reset fuel ls st = Some (e2, st2)) /\
       (e2 = None -> Reset fuel ls st = waitReadyForCommand fuel ls st2)).
Proof.
  unfold Reset, Wake, GetStatus, bind.
  destruct (bus_ReadByteFromReg_run (address ls) 0x01 st)
    as (status & e0 & st0 & E0 & L0 & _).
  rewrite E0.
  destruct (bus_WriteByteToReg_run (address ls) 0x65 0x00 st0)
    as (e1 & st1 & E1 & L1 & _).
  rewrite E1. exists status, e0, e1, st1.
  split; [reflexivity|]. split.
  { rewrite L1, L0, <- app_assoc. reflexivity. }
  split.
  - intros N. destruct e1; [reflexivity | contradiction].
  - intros ->. cbn [is_nil negb].
    destruct (bus_WriteByteToReg_run (address ls) 0x00 0x00 st1)
      as (e2 & st2 & E2 & L2 & _).
    rewrite E2. exists e2, st2. split; [exact L2|]. split.
    + intros N. destruct e2; [reflexivity | contradiction].
    + intros ->. reflexivity.
Qed.

(** Reset first wakes the sensor (a status read whose answer and error are
    both ignored, then 0x00 to register 0x65) and writes the reset command
    (0x00 to register 0x00) only if the wake write succeeded.  Whatever it
    returns, these are its only register writes, in this order; a failed
    write is returned as the result and nothing is written after it. *)
Theorem Reset_writes fuel ls (st : St W) err st' :
  Reset fuel ls st = Some (err, st') ->
  exists e1,
    (e1 <> None /\ err = e1 /\
     writes (log st') = writes (log st) ++ [EvWriteByte (address ls) 0x65 0x00 e1])
    \/
    (e1 = None /\ exists e2,
       writes (log st')
       = writes (log st) ++ [EvWriteByte (address ls) 0x65 0x00 None;
                             EvWriteByte (address ls) 0x00 0x00 e2] /\
       (e2 <> None -> err = e2)).
Proof.
  intros E.
  destruct (Reset_sequence fuel ls st)
    as (status & e0 & e1 & st1 & Ew & L1 & F1 & S1).
  assert (W1 : writes (log st1)
               = writes (log st) ++ [EvWriteByte (address ls) 0x65 0x00 e1]).
  { rewrite L1, writes_app. reflexivity. }
  exists e1. destruct e1 as [e1|].
  - rewrite (F1 ltac:(discriminate)) in E. injection E as <- <-.
    left. split; [discriminate|]. split; [reflexivity | exact W1].
  - right. split; [reflexivity|].
    destruct (S1 eq_refl) as (e2 & st2 & L2 & F2 & S2).
    assert (W2 : writes (log st2)
                 = writes (log st) ++ [EvWriteByte (address ls) 0x65 0x00 None;
                                       EvWriteByte (address ls) 0x00 0x00 e2]).
    { rewrite L2, writes_app, W1, <- app_assoc. reflexivity. }
    exists e2. destruct e2 as [e2|].
    + rewrite (F2 ltac:(discriminate)) in E. injection E as <- <-.
      split; [exact W2 | reflexivity].
    + rewrite (S2 eq_refl) in E.
      rewrite (quiet_waitReadyForCommand fuel ls _ _ _ E).
      split; [exact W2 | intros N; contradiction].
Qed.

End Commands.

Lemma Acquire_sends_once_witness :
  exists st',
    Acquire 5 Sim.quick false (Sim.boot [(0x01, 0x40)] [] []) = Some (None, st') /\
    ((None <> None (A := error) /\
      writes (log st') = writes (log (Sim.boot [(0x01, 0x40)] [] [])))
     \/
     writes (log st')
     = writes (log (Sim.boot [(0x01, 0x40)] [] []))
       ++ [EvWriteByte (address Sim.quick) 0x00 0x03 None]).
Proof.
  destruct (Acquire 5 Sim.quick false (Sim.boot [(0x01, 0x40)] [] []))
    as [[err st']|] eqn:E; [|vm_compute in E; discriminate].
  pose proof E as E'. vm_compute in E'. injection E' as <- <-.
  eexists. split; [reflexivity|].
  apply (Acquire_sends_once 5 Sim.quick false _ _ _ E).
Defined.

Lemma waitAcquisitionReady_health_detail_witness :
  exists healthFlags e err st2,
    waitAcquisitionReady 5 Sim.quick (Sim.boot [(0x01, 0x10)] [] [0x48])
    = Some (err, st2) /\
    log st2 = [EvReadByte (address Sim.quick) 0x01 0x10 None;
               EvReadByte (address Sim.quick) 0x48 healthFlags e] /\
    err = Some (HealthError healthFlags).
Proof.
  destruct (waitReadyStatus 5 Sim.quick (Sim.boot [(0x01, 0x10)] [] [0x48]))
    as [[[status perr] st1]|] eqn:E; [|vm_compute in E; discriminate].
  assert (N : perr = None) by (vm_compute in E; congruence). subst perr.
  destruct (waitAcquisitionReady_health_detail 5 Sim.quick _ status st1 E)
    as [_ D].
  vm_compute in E. injection E as <- <-.
  destruct (D eq_refl) as (hf & e & err & st2 & R & L & Herr).
  exists hf, e, err, st2. split; [exact R|]. split.
  - exact L.
  - apply Herr; reflexivity.
Defined.

Lemma Reset_writes_witness :
  exists err st' e1,
    Reset 5 Sim.quick (Sim.boot [] [] [0x00]) = Some (err, st') /\
    ((e1 <> None /\ err = e1 /\
      writes (log st')
      = writes (log (Sim.boot [] [] [0x00]))
        ++ [EvWriteByte (address Sim.quick) 0x65 0x00 e1])
     \/
     (e1 = None /\ exists e2,
        writes (log st')
        = writes (log (Sim.boot [] [] [0x00]))
          ++ [EvWriteByte (address Sim.quick) 0x65 0x00 None;
              EvWriteByte (address Sim.quick) 0x00 0x00 e2] /\
        (e2 <> None -> err = e2))).
Proof.
  destruct (Reset 5 Sim.quick (Sim.boot [] [] [0x00]))
    as [[err st']|] eqn:E; [|vm_compute in E; discriminate].
  destruct (Reset_writes 5 Sim.quick _ err st' E) as (e1 & P).
  exists err, st', e1. split; [reflexivity | exact P].
Defined.

(** ** Velocity read-out *)

Section Velocity.

Context {W : Type} `{World W}.

Lemma ReadVelocity_inv fuel ls (st : St W) value err st' :
  ReadVelocity fuel ls st = Some ((value, err), st') ->
  (value = 0 /\ fatal err = true)
  \/
  (fatal err = false /\
   exists scale raw,
     0 <= raw < 256 /\ 0 <= scale < 256 /\
     value = Z.quot (signed8 raw * scale) 20).
Proof.
  unfold ReadVelocity, bind. intros E.
  destruct (waitAcquisitionReady fuel ls st) as [[herr st1]|]; [|discriminate].
  destruct (fatal herr) eqn:Fh.
  { injection E as <- <- _. left. auto. }
  destruct (bus_ReadByteFromReg (address ls) modeControlRegister st1)
    as [[[control ec] st2]|] eqn:Ec; [|discriminate].
  apply bus_ReadByteFromReg_range in Ec. destruct Ec as (_ & Fc & _).
  cbv beta iota in E. destruct Fc as [->|[s ->]]; cbn [is_nil negb] in E.
  2: { injection E as <- <- _. left. auto. }
  assert (K : forall scale (st3 : St W),
    0 <= scale < 256 ->
    bind (bus_ReadByteFromReg (address ls) 0x09)
      (fun x => let '(valueUnscaled, err0) := x in
         if negb (is_nil err0) then ret (0, err0)
         else ret (int16 (Z.quot (int8 valueUnscaled * scale) 20), herr)) st3
    = Some ((value, err), st') ->
    (value = 0 /\ fatal err = true)
    \/
    (fatal err = false /\
     exists scale raw,
       0 <= raw < 256 /\ 0 <= scale < 256 /\
       value = Z.quot (signed8 raw * scale) 20)).
  { intros scale st3 Hs E3. unfold bind in E3.
    destruct (bus_ReadByteFromReg (address ls) 0x09 st3)
      as [[[raw er] st4]|] eqn:Er; [|discriminate].
    apply bus_ReadByteFromReg_range in Er. destruct Er as (Hr & Fr & _).
    destruct Fr as [->|[s ->]]; cbn [is_nil negb] in E3.
    - injection E3 as <- <- _. right. split; [exact Fh|].
      exists scale, raw. split; [exact Hr|]. split; [exact Hs|].
      apply velocity_no_wrap; assumption.
    - injection E3 as <- <- _. left. auto. }
  destruct (negb (Z.land control customAcquisitionInterval =? 0)).
  - destruct (bus_ReadByteFromReg (address ls) 0x45 st2)
      as [[[scale es] st3]|] eqn:Es; [|discriminate].
    apply bus_ReadByteFromReg_range in Es. destruct Es as (Hs & Fs & _).
    cbv beta iota in E. destruct Fs as [->|[s ->]]; cbn [is_nil negb] in E.
    + exact (K scale st3 Hs E).
    + injection E as <- <- _. left. auto.
  - unfold ret at 1 in E. cbv beta iota in E. cbn [is_nil negb] in E.
    apply (K (byte defaultIntervalValue) st2); [|exact E].
    apply byte_range.
Qed.

(** Whatever ReadVelocity returns, the velocity lies between -1632 and
    1619 cm/s, so the conversion to int16 never wraps; and whenever the
    error returned is neither nil nor a HealthError the velocity is zero. *)
Theorem ReadVelocity_range fuel ls (st : St W) value err st' :
  ReadVelocity fuel ls st = Some ((value, err), st') ->
  -1632 <= value <= 1619 /\ (fatal err = true -> value = 0).
Proof.
  intros E. apply ReadVelocity_inv in E.
  destruct E as [[-> F]|[F (scale & raw & Hr & Hs & ->)]].
  - split; [lia | reflexivity].
  - split; [|congruence].
    assert (Hv : -128 <= signed8 raw <= 127).
    { unfold signed8. destruct (Z.ltb_spec raw 128); lia. }
    assert (Hp : -32640 <= signed8 raw * scale <= 32385) by nia.
    clear Hv. generalize dependent (signed8 raw * scale). intros p Hp.
    Z.to_euclidean_division_equations. lia.
Qed.

(** With the custom-interval bit clear the default scale 0xc8 is a multiple
    of the divisor 20, so nothing is truncated: when the wait is not fatal
    and the control and velocity reads succeed, ReadVelocity returns exactly
    ten times the signed raw byte, between -1280 and 1270 cm/s. *)
Theorem ReadVelocity_default_scale
  fuel ls (st : St W) herr st1 control st2 raw st3 :
  waitAcquisitionReady fuel ls st = Some (herr, st1) ->
  fatal herr = false ->
  bus_ReadByteFromReg (address ls) modeControlRegister st1
  = Some ((control, None), st2) ->
  Z.land control customAcquisitionInterval = 0 ->
  bus_ReadByteFromReg (address ls) 0x09 st2 = Some ((raw, None), st3) ->
  ReadVelocity fuel ls st = Some ((10 * signed8 raw, herr), st3) /\
  -1280 <= 10 * signed8 raw <= 1270.
Proof.
  intros Ew F Ec Hc Er.
  unfold ReadVelocity, bind. rewrite Ew, F, Ec. cbv beta iota.
  cbn [is_nil negb]. apply Z.eqb_eq in Hc. rewrite Hc. cbn [negb].
  unfold ret at 1. cbv beta iota. cbn [is_nil negb]. rewrite Er.
  cbv beta iota zeta. cbn [is_nil negb]. unfold ret.
  apply bus_ReadByteFromReg_range in Er. destruct Er as (Hr & _).
  rewrite velocity_no_wrap; [|exact Hr | apply byte_range].
  assert (Hv : -128 <= signed8 raw <= 127).
  { unfold signed8. destruct (Z.ltb_spec raw 128); lia. }
  change (byte defaultIntervalValue) with 200.
  replace (signed8 raw * 200) with (10 * signed8 raw * 20) by lia.
  rewrite Z.quot_mul by lia. split; [reflexivity | lia].
Qed.

(** ReadVelocity stops at the first failure and returns zero with that
    error: after a fatal wait it reads nothing more; after a failed control
    read it reads neither the interval nor the velocity register; after a
    failed interval read it does not read the velocity register.  A bus
    error met this way replaces a HealthError reported by the wait. *)
Theorem ReadVelocity_stops fuel ls (st : St W) herr st1 :
  waitAcquisitionReady fuel ls st = Some (herr, st1) ->
  (fatal herr = true -> ReadVelocity fuel ls st = Some ((0, herr), st1)) /\
  (fatal herr = false ->
   forall control e st2,
     bus_ReadByteFromReg (address ls) modeControlRegister st1
     = Some ((control, Some e), st2) ->
     ReadVelocity fuel ls st = Some ((0, Some e), st2)) /\
  (fatal herr = false ->
   forall control st2 scale e st3,
     bus_ReadByteFromReg (address ls) modeControlRegister st1
     = Some ((control, None), st2) ->
     Z.land control customAcquisitionInterval <> 0 ->
     bus_ReadByteFromReg (address ls) 0x45 st2 = Some ((scale, Some e), st3) ->
     ReadVelocity fuel ls st = Some ((0, Some e), st3)).
Proof.
  intros Ew. unfold ReadVelocity, bind. rewrite Ew. split; [|split].
  - intros ->. reflexivity.
  - intros -> control e st2 Ec. rewrite Ec. reflexivity.
  - intros -> control st2 scale e st3 Ec Hc Es. rewrite Ec.
    cbv beta iota. cbn [is_nil negb].
    apply Z.eqb_neq in Hc. rewrite Hc. cbn [negb]. rewrite Es. reflexivity.
Qed.

End Velocity.

Lemma ReadVelocity_range_witness :
  exists value err st',
    ReadVelocity 5 Sim.quick
      (Sim.boot [(0x01, 0x20); (0x04, 0x20); (0x45, 0xff); (0x09, 0x80)] [] [])
    = Some ((value, err), st') /\
    -1632 <= value <= 1619 /\ (fatal err = true -> value = 0).
Proof.
  destruct (ReadVelocity 5 Sim.quick
      (Sim.boot [(0x01, 0x20); (0x04, 0x20); (0x45, 0xff); (0x09, 0x80)] [] []))
    as [[[value err] st']|] eqn:E; [|vm_compute in E; discriminate].
  exists value, err, st'. split; [reflexivity|].
  apply (ReadVelocity_range 5 Sim.quick _ _ _ _ E).
Defined.

Lemma ReadVelocity_default_scale_witness :
  exists st',
    ReadVelocity 5 Sim.quick (Sim.boot [(0x01, 0x20); (0x09, 0x80)] [] [])
    = Some ((-1280, None), st').
Proof.
  destruct (waitAcquisitionReady 5 Sim.quick
              (Sim.boot [(0x01, 0x20); (0x09, 0x80)] [] []))
    as [[herr st1]|] eqn:Ew; [|vm_compute in Ew; discriminate].
  pose proof Ew as Ew'. vm_compute in Ew'. injection Ew' as <- <-.
  match type of Ew with _ = Some (_, ?s1) =>
    destruct (bus_ReadByteFromReg (address Sim.quick) modeControlRegister s1)
      as [[[control ec] st2]|] eqn:Ec; [|vm_compute in Ec; discriminate]
  end.
  pose proof Ec as Ec'. vm_compute in Ec'. injection Ec' as <- <- <-.
  match type of Ec with _ = Some (_, ?s2) =>
    destruct (bus_ReadByteFromReg (address Sim.quick) 0x09 s2)
      as [[[raw er] st3]|] eqn:Er; [|vm_compute in Er; discriminate]
  end.
  pose proof Er as Er'. vm_compute in Er'. injection Er' as <- <- <-.
  eexists.
  apply (ReadVelocity_default_scale 5 Sim.quick _ _ _ _ _ _ _
           Ew eq_refl Ec eq_refl Er).
Defined.

Lemma ReadVelocity_stops_witness :
  exists st',
    ReadVelocity 5 Sim.quick (Sim.boot [(0x01, 0x10); (0x09, 0x80)] [] [0x04])
    = Some ((0, Some (BusError "remote I/O error")), st') /\
    log st' = [EvReadByte (address Sim.quick) 0x01 0x10 None;
               EvReadByte (address Sim.quick) 0x48 0 None;
               EvReadByte (address Sim.quick) 0x04 0
                 (Some (BusError "remote I/O error"))].
Proof.
  destruct (waitAcquisitionReady 5 Sim.quick
              (Sim.boot [(0x01, 0x10); (0x09, 0x80)] [] [0x04]))
    as [[herr st1]|] eqn:Ew; [|vm_compute in Ew; discriminate].
  destruct (ReadVelocity_stops 5 Sim.quick _ herr st1 Ew) as (_ & S & _).
  vm_compute in Ew. injection Ew as <- <-.
  match type of S with _ -> forall _ _ _, bus_ReadByteFromReg _ _ ?s1 = _ -> _ =>
    destruct (bus_ReadByteFromReg (address Sim.quick) modeControlRegister s1)
      as [[[control ec] st2]|] eqn:Ec; [|vm_compute in Ec; discriminate]
  end.
  pose proof Ec as Ec'. vm_compute in Ec'. injection Ec' as <- <- <-.
  eexists. split; [exact (S eq_refl _ _ _ Ec) | reflexivity].
Defined.

(** ** The three public modes *)

Section Modes.

Context {W : Type} `{World W}.

Lemma setAcquisitionInterval_rejects ls interval velocity (st : St W) :
  interval <> DefaultAcquisitionInterval ->
  translatedInterval interval < minIntervalValue
  \/ translatedInterval interval > maxIntervalValue ->
  exists e st',
    setAcquisitionInterval ls interval velocity st = Some (Some e, st') /\
    writes (log st') = writes (log st).
Proof.
  intros Hd Hr. unfold setAcquisitionInterval, bind, ret.
  destruct (bus_ReadByteFromReg_run (address ls) modeControlRegister st)
    as (control & e & st1 & E1 & L1 & _).
  rewrite E1.
  assert (Hw : writes (log st1) = writes (log st)).
  { rewrite L1, writes_app. simpl. apply app_nil_r. }
  destruct e as [e|]; cbn [is_nil negb]; [eauto|].
  apply Z.eqb_neq in Hd. rewrite Hd. cbv zeta.
  assert (G : (translatedInterval interval <? minIntervalValue)
              || (translatedInterval interval >? maxIntervalValue) = true).
  { apply orb_true_iff. destruct Hr as [Hr|Hr]; [left | right].
    - apply Z.ltb_lt. exact Hr.
    - apply Z.gtb_lt. lia. }
  rewrite G. eauto.
Qed.

(** A mode request whose interval is rejected changes nothing on the
    sensor: SetContinuousMode and SetDistanceAndVelocityMode return a
    non-nil error and write no register, the count register included. *)
Theorem modes_reject_without_writes ls total interval (st : St W) :
  interval <> DefaultAcquisitionInterval ->
  translatedInterval interval < minIntervalValue
  \/ translatedInterval interval > maxIntervalValue ->
  (exists e st',
      SetContinuousMode ls total interval st = Some (Some e, st') /\
      writes (log st') = writes (log st)) /\
  (exists e st',
      SetDistanceAndVelocityMode ls interval st = Some (Some e, st') /\
      writes (log st') = writes (log st)).
Proof.
  intros Hd Hr. split.
  - destruct (setAcquisitionInterval_rejects ls interval false st Hd Hr)
      as (e & st' & E & Q).
    exists e, st'. unfold SetContinuousMode, bind. rewrite E. auto.
  - destruct (setAcquisitionInterval_rejects ls interval true st Hd Hr)
      as (e & st' & E & Q).
    exists e, st'. unfold SetDistanceAndVelocityMode, bind. rewrite E. auto.
Qed.

Lemma setAcquisitionInterval_success ls interval velocity (st : St W) st1 :
  setAcquisitionInterval ls interval velocity st = Some (None, st1) ->
  exists value,
    writes (log st1)
    = writes (log st)
      ++ (if interval =? DefaultAcquisitionInterval then []
          else [EvWriteByte (address ls) 0x45 (translatedInterval interval) None])
      ++ [EvWriteByte (address ls) modeControlRegister value None] /\
    Z.testbit value 5 = negb (interval =? DefaultAcquisitionInterval) /\
    Z.testbit value 7 = velocity /\
    (interval <> DefaultAcquisitionInterval ->
     minIntervalValue <= translatedInterval interval <= maxIntervalValue).
Proof.
  unfold setAcquisitionInterval, bind, ret. intros E.
  destruct (bus_ReadByteFromReg (address ls) modeControlRegister st)
    as [[[control e0] st0]|] eqn:E0; [|discriminate].
  apply bus_ReadByteFromReg_range in E0. destruct E0 as (_ & _ & L0).
  assert (W0 : writes (log st0) = writes (log st)).
  { rewrite L0, writes_app. simpl. apply app_nil_r. }
  cbv beta iota in E. destruct e0; cbn [is_nil negb] in E; [discriminate|].
  destruct (Z.eqb_spec interval DefaultAcquisitionInterval) as [Hd|Hd].
  - match type of E with context [bus_WriteByteToReg ?a ?r ?v st0] =>
      destruct (bus_WriteByteToReg_run a r v st0) as (e1 & st2 & E1 & L1 & _);
      rewrite E1 in E; pose proof (control_bits control velocity) as B
    end.
    destruct e1; cbn [is_nil negb] in E; [discriminate|].
    injection E as <-. eexists. split.
    + rewrite L1, writes_app, W0. reflexivity.
    + cbn [negb]. split; [apply B|]. split; [apply B | contradiction].
  - cbv zeta in E.
    destruct ((translatedInterval interval <? minIntervalValue)
              || (translatedInterval interval >? maxIntervalValue)) eqn:G;
      [discriminate|].
    apply orb_false_iff in G. destruct G as [G1 G2].
    apply Z.ltb_ge in G1. rewrite Z.gtb_ltb in G2. apply Z.ltb_ge in G2.
    assert (Hb : byte (translatedInterval interval) = translatedInterval interval).
    { unfold byte. apply Z.mod_small.
      unfold minIntervalValue in G1. unfold maxIntervalValue in G2. lia. }
    rewrite Hb in E.
    destruct (bus_WriteByteToReg_run (address ls) 0x45
                (translatedInterval interval) st0)
      as (e1 & st2 & E1 & L1 & _).
    rewrite E1 in E. destruct e1; cbn [is_nil negb] in E; [discriminate|].
    match type of E with context [bus_WriteByteToReg ?a ?r ?v st2] =>
      destruct (bus_WriteByteToReg_run a r v st2) as (e2 & st3 & E2 & L2 & _);
      rewrite E2 in E; pose proof (custom_control_bits control velocity) as B
    end.
    destruct e2; cbn [is_nil negb] in E; [discriminate|].
    injection E as <-. eexists. split.
    + rewrite L2, writes_app, L1, writes_app, W0, <- app_assoc. reflexivity.
    + cbn [negb]. split; [apply B|]. split; [apply B | auto].
Qed.

(** When a mode request returns nil, the registers were written in this
    order and with these values: the translated interval to register 0x45
    (only for an interval other than the default), then the control
    register with the custom-interval bit set exactly for a non-default
    interval and the velocity bit set only by SetDistanceAndVelocityMode,
    and last the count register: the caller's total for SetContinuousMode
    and 0 for the other two modes. *)
Theorem modes_configure ls total interval (st : St W) st' :
  (SetDistanceOnlyMode ls st = Some (None, st') ->
   exists value,
     writes (log st')
     = writes (log st)
       ++ [EvWriteByte (address ls) modeControlRegister value None;
           EvWriteByte (address ls) 0x11 0 None] /\
     Z.testbit value 5 = false /\ Z.testbit value 7 = false) /\
  (SetContinuousMode ls total interval st = Some (None, st') ->
   exists value,
     writes (log st')
     = writes (log st)
       ++ (if interval =? DefaultAcquisitionInterval then []
           else [EvWriteByte (address ls) 0x45 (translatedInterval interval) None])
       ++ [EvWriteByte (address ls) modeControlRegister value None;
           EvWriteByte (address ls) 0x11 total None] /\
     Z.testbit value 5 = negb (interval =? DefaultAcquisitionInterval) /\
     Z.testbit value 7 = false) /\
  (SetDistanceAndVelocityMode ls interval st = Some (None, st') ->
   exists value,
     writes (log st')
     = writes (log st)
       ++ (if interval =? DefaultAcquisitionInterval then []
           else [EvWriteByte (address ls) 0x45 (translatedInterval interval) None])
       ++ [EvWriteByte (address ls) modeControlRegister value None;
           EvWriteByte (address ls) 0x11 0 None] /\
     Z.testbit value 5 = negb (interval =? DefaultAcquisitionInterval) /\
     Z.testbit value 7 = true).
Proof.
  assert (K : forall i v count,
    bind (setAcquisitionInterval ls i v)
      (fun err => if negb (is_nil err) then ret err
                  else setAcquisitionCount ls count) st = Some (None, st') ->
    exists value,
      writes (log st')
      = writes (log st)
        ++ (if i =? DefaultAcquisitionInterval then []
            else [EvWriteByte (address ls) 0x45 (translatedInterval i) None])
        ++ [EvWriteByte (address ls) modeControlRegister value None;
            EvWriteByte (address ls) 0x11 count None] /\
      Z.testbit value 5 = negb (i =? DefaultAcquisitionInterval) /\
      Z.testbit value 7 = v).
  { intros i v count E. unfold bind in E.
    destruct (setAcquisitionInterval ls i v st) as [[err st1]|] eqn:Ei;
      [|discriminate].
    destruct err as [e|]; cbn [is_nil negb] in E; [discriminate|].
    apply setAcquisitionInterval_success in Ei.
    destruct Ei as (value & L & B5 & B7 & _).
    unfold setAcquisitionCount in E.
    destruct (bus_WriteByteToReg_run (address ls) 0x11 count st1)
      as (e & st2 & E2 & L2 & _).
    rewrite E2 in E. injection E as -> <-.
    exists value. split; [|auto].
    rewrite L2, writes_app, L, <- !app_assoc. reflexivity. }
  split; [|split].
  - intros E. apply (K DefaultAcquisitionInterval false 0) in E.
    rewrite Z.eqb_refl in E. exact E.
  - apply K.
  - apply K.
Qed.

End Modes.

Lemma modes_reject_without_writes_witness :
  (exists e st',
      SetContinuousMode Sim.quick InfiniteAcquisitions (200 * Millisecond)
        (Sim.boot [] [] []) = Some (Some e, st') /\
      writes (log st') = writes (log (Sim.boot [] [] []))) /\
  (exists e st',
      SetDistanceAndVelocityMode Sim.quick (200 * Millisecond)
        (Sim.boot [] [] []) = Some (Some e, st') /\
      writes (log st') = writes (log (Sim.boot [] [] []))).
Proof.
  apply (modes_reject_without_writes Sim.quick InfiniteAcquisitions
           (200 * Millisecond)).
  - vm_compute. discriminate.
  - right. vm_compute. reflexivity.
Defined.

Lemma modes_configure_witness :
  exists st' value,
    SetDistanceAndVelocityMode Sim.quick (10 * Millisecond) (Sim.boot [] [] [])
    = Some (None, st') /\
    writes (log st')
    = writes (log (Sim.boot [] [] []))
      ++ (if 10 * Millisecond =? DefaultAcquisitionInterval then []
          else [EvWriteByte (address Sim.quick) 0x45
                  (translatedInterval (10 * Millisecond)) None])
      ++ [EvWriteByte (address Sim.quick) modeControlRegister value None;
          EvWriteByte (address Sim.quick) 0x11 0 None] /\
    Z.testbit value 5 = negb (10 * Millisecond =? DefaultAcquisitionInterval) /\
    Z.testbit value 7 = true.
Proof.
  destruct (SetDistanceAndVelocityMode Sim.quick (10 * Millisecond)
              (Sim.boot [] [] []))
    as [[err st']|] eqn:E; [|vm_compute in E; discriminate].
  pose proof E as E'. vm_compute in E'. injection E' as <- <-.
  match type of E with _ = Some (_, ?s1) =>
    destruct (modes_configure Sim.quick 0 (10 * Millisecond)
                (Sim.boot [] [] []) s1) as (_ & _ & V)
  end.
  destruct (V E) as (value & P).
  eexists _, value. split; [reflexivity | exact P].
Defined.

(** ** The backoff sequence *)

Lemma sleeps_app (l1 l2 : list Event) : sleeps (l1 ++ l2) = sleeps l1 ++ sleeps l2.
Proof.
  induction l1 as [|ev l1 IH]; [reflexivity|].
  destruct ev; simpl; rewrite IH; reflexivity.
Qed.

Section Backoff.

Context {W : Type} `{World W} {Mo : Monotonic} {R : Resting}.

Lemma waitReadyStatus_loop_backoff (fuel : nat) :
  forall ls startedAt backoff (k : nat) (st : St W) r st',
    WaitTimeout ls <= maxDuration ->
    (k <= 44)%nat ->
    ((k <= 43)%nat -> backoff = Millisecond * 2 ^ Z.of_nat k) ->
    Millisecond * (2 ^ Z.of_nat k - 1) <= now (world st) - startedAt ->
    waitReadyStatus_loop fuel ls startedAt backoff st = Some (r, st') ->
    exists n,
      (k + n <= 44)%nat /\
      sleeps (log st') = sleeps (log st) ++ doubling (Millisecond * 2 ^ Z.of_nat k) n.
Proof.
  induction fuel as [|fuel IH];
    intros ls startedAt backoff k st r st' Hmax Hk Hb Hel Hrun; [discriminate|].
  cbn [waitReadyStatus_loop] in Hrun. unfold bind, GetStatus in Hrun.
  destruct (bus_ReadByteFromReg_run (address ls) 0x01 st)
    as (v & e & st1 & E1 & L1 & _ & _ & Hw).
  rewrite E1 in Hrun. cbv beta iota in Hrun.
  assert (S1 : sleeps (log st1) = sleeps (log st)).
  { rewrite L1, sleeps_app. apply app_nil_r. }
  pose proof (mono_ReadByte (address ls) 0x01 (world st)) as T1.
  rewrite <- Hw in T1.
  destruct (is_nil e && (Z.land v Busy =? 0)).
  { injection Hrun as _ <-. exists 0%nat. split; [lia|].
    rewrite S1, app_nil_r. reflexivity. }
  unfold time_Since in Hrun. cbv beta iota in Hrun.
  destruct (saturate (now (world st1) - startedAt) >=? WaitTimeout ls) eqn:D.
  { injection Hrun as _ <-. exists 0%nat. split; [lia|].
    rewrite S1, app_nil_r. reflexivity. }
  apply geb_false_lt in D. apply saturate_lt_inv in D; [|exact Hmax].
  unfold maxDuration in Hmax.
  assert (Hk43 : (k <= 43)%nat).
  { destruct (Nat.le_gt_cases k 43) as [|G]; [assumption|].
    assert (k = 44%nat) by lia. subst k.
    change (2 ^ Z.of_nat 44) with 17592186044416 in Hel.
    unfold Millisecond in Hel. lia. }
  specialize (Hb Hk43).
  assert (P43 : 2 ^ Z.of_nat k <= 2 ^ 43).
  { apply Z.pow_le_mono_r; lia. }
  assert (P0 : 0 < 2 ^ Z.of_nat k) by (apply Z.pow_pos_nonneg; lia).
  change (2 ^ 43) with 8796093022208 in P43.
  assert (PS : 2 ^ Z.of_nat (S k) = 2 * 2 ^ Z.of_nat k).
  { rewrite Nat2Z.inj_succ. apply Z.pow_succ_r. lia. }
  set (p := 2 ^ Z.of_nat k) in *. clearbody p.
  unfold time_Sleep in Hrun. cbv beta iota in Hrun.
  apply (IH ls startedAt _ (S k)) in Hrun.
  - destruct Hrun as (n & Hn & L).
    exists (S n). split; [lia|].
    rewrite L. cbn [log]. rewrite sleeps_app, S1, <- app_assoc.
    cbn [sleeps app doubling]. rewrite Hb, PS.
    replace (Millisecond * p * 2) with (Millisecond * (2 * p)) by lia.
    reflexivity.
  - unfold maxDuration. exact Hmax.
  - lia.
  - intros HS. rewrite Hb, PS.
    assert (P42 : 2 ^ Z.of_nat (S k) <= 2 ^ 43).
    { apply Z.pow_le_mono_r; lia. }
    rewrite PS in P42. change (2 ^ 43) with 8796093022208 in P42.
    rewrite int64_small.
    + lia.
    + unfold minDuration, maxDuration, Millisecond. clear - P0 P42. lia.
  - cbn [world]. pose proof (rest_sleep backoff (world st1)) as Rs.
    rewrite PS. unfold Millisecond in *. clear PS. lia.
Qed.

(** In a world where [time.Sleep] lasts at least as long as asked and no
    transfer moves the clock back (transfers may well take no time at all),
    the sleeps of one waitReadyStatus call
    are exactly 1 ms, 2 ms, 4 ms, ... with no int64 overflow of the
    backoff, and there are at most 44 of them, whatever WaitTimeout is. *)
Theorem waitReadyStatus_backoff fuel ls (st : St W) r st' :
  WaitTimeout ls <= maxDuration ->
  waitReadyStatus fuel ls st = Some (r, st') ->
  exists n,
    (n <= 44)%nat /\
    sleeps (log st') = sleeps (log st) ++ doubling Millisecond n.
Proof.
  intros Hmax E. unfold waitReadyStatus, bind, time_Now in E.
  apply (waitReadyStatus_loop_backoff fuel ls _ _ 0%nat) in E.
  - destruct E as (n & Hn & L). exists n. split; [lia|].
    rewrite L. change (2 ^ Z.of_nat 0) with 1. rewrite Z.mul_1_r. reflexivity.
  - exact Hmax.
  - lia.
  - intros _. reflexivity.
  - change (2 ^ Z.of_nat 0) with 1. lia.
Qed.

End Backoff.

Lemma Sim_Resting : Resting (W := Sim.Device).
Proof. split. intros d w. cbn. lia. Qed.

Lemma Sim_Monotonic : Monotonic (W := Sim.Device).
Proof.
  pose proof Sim_Ticking as T. split; intros.
  - pose proof (tick_ReadByte addr reg w). pose proof tick_pos. lia.
  - pose proof (tick_ReadWord addr reg w). pose proof tick_pos. lia.
  - pose proof (tick_WriteByte addr reg value w). pose proof tick_pos. lia.
Qed.

Lemma waitReadyStatus_backoff_witness :
  exists r st' n,
    waitReadyStatus 20 (NewLidar DefaultAddress) Sim.stuck = Some (r, st') /\
    (n <= 44)%nat /\
    sleeps (log st') = sleeps (log Sim.stuck) ++ doubling Millisecond n.
Proof.
  destruct (waitReadyStatus 20 (NewLidar DefaultAddress) Sim.stuck)
    as [[r st']|] eqn:E; [|vm_compute in E; discriminate].
  destruct (waitReadyStatus_backoff (Mo := Sim_Monotonic) (R := Sim_Resting)
              20 (NewLidar DefaultAddress) Sim.stuck r st') as (n & P).
  - vm_compute. discriminate.
  - exact E.
  - exists r, st', n. split; [reflexivity | exact P].
Defined.

(** ** Termination of the blocking operations *)

Section Termination.

Context {W : Type} `{World W} (tick : Z) {T : Ticking tick}.
Variables (ls : Lidar) (fuel : nat).
Hypothesis Hmax : WaitTimeout ls <= maxDuration.
Hypothesis Hpos : (0 < fuel)%nat.
Hypothesis Hfuel : WaitTimeout ls <= Z.of_nat fuel * tick.

Lemma total_ReadVelocity : total (ReadVelocity fuel ls).
Proof.
  unfold ReadVelocity. apply total_bind.
  - apply (total_waitAcquisitionReady tick ls fuel Hmax Hpos Hfuel).
  - intros herr. destruct (fatal herr); [apply total_ret|].
    apply total_bind; [apply total_ReadByte|].
    intros [control err]. destruct (negb (is_nil err)); [apply total_ret|].
    apply total_bind.
    + destruct (negb (Z.land control customAcquisitionInterval =? 0));
        [apply total_ReadByte | apply total_ret].
    + intros [scale err']. destruct (negb (is_nil err')); [apply total_ret|].
      apply total_bind; [apply total_ReadByte|].
      intros [raw err'']. destruct (negb (is_nil err'')); apply total_ret.
Qed.

Lemma total_Reset : total (Reset fuel ls).
Proof.
  unfold Reset, Wake, GetStatus. apply total_bind.
  - apply total_bind; [apply total_ReadByte|]. intros _. apply total_WriteByte.
  - intros err. destruct (negb (is_nil err)); [apply total_ret|].
    apply total_bind; [apply total_WriteByte|].
    intros err'. destruct (negb (is_nil err')); [apply total_ret|].
    apply (total_waitReadyForCommand tick ls fuel Hmax Hpos Hfuel).
Qed.

(** In a world where every bus transfer takes at least [tick] nanoseconds,
    the polling loop behind Acquire, ReadDistance, ReadVelocity and Reset
    ends after at most [fuel] status reads as soon as [fuel] ticks cover
    WaitTimeout: with that many iterations allowed, each of the four
    operations returns a result from every state, however the sensor
    answers. *)
Theorem blocking_operations_return (stablizePreamp : bool) (st : St W) :
  (exists err st', Acquire fuel ls stablizePreamp st = Some (err, st')) /\
  (exists r st', ReadDistance fuel ls st = Some (r, st')) /\
  (exists r st', ReadVelocity fuel ls st = Some (r, st')) /\
  (exists err st', Reset fuel ls st = Some (err, st')).
Proof.
  split; [|split; [|split]].
  - apply (total_Acquire tick ls fuel Hmax Hpos Hfuel).
  - apply (total_ReadDistance tick ls fuel Hmax Hpos Hfuel).
  - apply total_ReadVelocity.
  - apply total_Reset.
Qed.

End Termination.

Lemma blocking_operations_return_witness :
  (exists err st', Acquire 5 Sim.quick true Sim.stuck = Some (err, st')) /\
  (exists r st', ReadDistance 5 Sim.quick Sim.stuck = Some (r, st')) /\
  (exists r st', ReadVelocity 5 Sim.quick Sim.stuck = Some (r, st')) /\
  (exists err st', Reset 5 Sim.quick Sim.stuck = Some (err, st')).
Proof.
  apply (blocking_operations_return Sim.transfer_time (T := Sim_Ticking)
           Sim.quick 5%nat).
  - vm_compute. discriminate.
  - lia.
  - vm_compute. discriminate.
Defined.

(** ** Configuring, then reading, on a register file *)

Lemma Sim_lookup_other (reg k v : Z) (l : list (Z * Z)) :
  k <> reg -> Sim.lookup reg ((k, v) :: l) = Sim.lookup reg l.
Proof. intros N. cbn [Sim.lookup]. apply Z.eqb_neq in N. rewrite N. reflexivity. Qed.

Lemma Sim_lookup_same (reg v : Z) (l : list (Z * Z)) :
  Sim.lookup reg ((reg, v) :: l) = v.
Proof. cbn [Sim.lookup]. rewrite Z.eqb_refl. reflexivity. Qed.

Lemma Sim_read_ok (addr reg : Z) (r : list (Z * Z)) (c : Z) (l : list Event) :
  bus_ReadByteFromReg addr reg
    {| world := {| Sim.regs := r; Sim.script := []; Sim.broken := [];
                   Sim.clock := c |};
       log := l |}
  = Some ((byte (Sim.lookup reg r), None),
          {| world := {| Sim.regs := r; Sim.script := []; Sim.broken := [];
                         Sim.clock := c + Sim.transfer_time |};
             log := l ++ [EvReadByte addr reg (byte (Sim.lookup reg r)) None] |}).
Proof.
  unfold bus_ReadByteFromReg. cbn [world log ReadByteFromReg Sim.Device_World].
  unfold Sim.read. cbn [Sim.script]. destruct (reg =? 1); reflexivity.
Qed.

Lemma Sim_write_ok (addr reg value : Z) (r : list (Z * Z)) (c : Z) (l : list Event) :
  bus_WriteByteToReg addr reg value
    {| world := {| Sim.regs := r; Sim.script := []; Sim.broken := [];
                   Sim.clock := c |};
       log := l |}
  = Some (None,
          {| world := {| Sim.regs := (reg, value) :: r; Sim.script := [];
                         Sim.broken := []; Sim.clock := c + Sim.transfer_time |};
             log := l ++ [EvWriteByte addr reg value None] |}).
Proof. reflexivity. Qed.

(** On a register file (every transfer succeeds and a read returns what was
    last written), SetDistanceAndVelocityMode with a window other than the
    default and in range succeeds, and a ReadVelocity that follows, finding
    the sensor ready and healthy, scales the raw velocity by the translated
    window: the scale it reads back from register 0x45 is the value the
    mode request wrote there. *)
Theorem window_sets_velocity_scale
  (ls : Lidar) (fuel : nat) (regs : list (Z * Z)) (window : Z) :
  (0 < fuel)%nat ->
  window <> DefaultAcquisitionInterval ->
  minIntervalValue <= translatedInterval window <= maxIntervalValue ->
  Z.land (byte (Sim.lookup 0x01 regs)) Busy = 0 ->
  Z.land (byte (Sim.lookup 0x01 regs)) Healthy <> 0 ->
  Z.land (byte (Sim.lookup 0x01 regs)) ErrorDetected = 0 ->
  Z.land (byte (Sim.lookup 0x01 regs)) SignalNotDetected = 0 ->
  exists st1 st2,
    SetDistanceAndVelocityMode ls window (Sim.boot regs [] []) = Some (None, st1) /\
    ReadVelocity fuel ls st1
    = Some ((Z.quot (signed8 (byte (Sim.lookup 0x09 regs))
                     * translatedInterval window) 20, None), st2).
Proof.
  intros Hf Hd Hr Hbusy Hhealthy Herr Hsig.
  destruct fuel as [|fuel]; [lia|].
  assert (Hb : byte (translatedInterval window) = translatedInterval window).
  { unfold byte. apply Z.mod_small.
    unfold minIntervalValue, maxIntervalValue in Hr. lia. }
  assert (G : (translatedInterval window <? minIntervalValue)
              || (translatedInterval window >? maxIntervalValue) = false).
  { apply orb_false_iff. split.
    - apply Z.ltb_ge. apply Hr.
    - rewrite Z.gtb_ltb. apply Z.ltb_ge. apply Hr. }
  apply Z.eqb_neq in Hd. apply Z.eqb_eq in Hbusy, Herr, Hsig.
  apply Z.eqb_neq in Hhealthy.
  pose proof (custom_control_bits
                (byte (Sim.lookup modeControlRegister regs)) true) as B.
  cbv zeta in B. destruct B as (B5 & _).
  assert (Hc : (Z.land
                  (byte (Z.lor (Z.lor (byte (Sim.lookup modeControlRegister regs))
                                      velocityModeEnabled)
                               customAcquisitionInterval))
                  customAcquisitionInterval =? 0) = false).
  { match goal with |- (Z.land ?x _ =? 0) = false =>
      pose proof (land_bit_eqb x 5 ltac:(lia)) as Lb
    end.
    change (Z.shiftl 1 5) with customAcquisitionInterval in Lb. rewrite Lb.
    unfold byte at 1. change 256 with (2 ^ 8).
    rewrite Z.mod_pow2_bits_low by lia. rewrite B5. reflexivity. }
  eexists _, _. split.
  - unfold SetDistanceAndVelocityMode, setAcquisitionInterval, setAcquisitionCount,
      bind, Sim.boot.
    rewrite Sim_read_ok. cbv beta iota zeta. cbn [is_nil negb].
    rewrite Hd, G, Hb. rewrite Sim_write_ok. cbn [is_nil negb].
    rewrite Sim_write_ok. cbn [is_nil negb]. unfold ret at 1.
    cbn [is_nil negb]. rewrite Sim_write_ok. reflexivity.
  - unfold ReadVelocity, waitAcquisitionReady, waitReadyStatus, bind, time_Now.
    cbn [waitReadyStatus_loop]. unfold GetStatus, bind.
    rewrite Sim_read_ok. cbv beta iota.
    rewrite !Sim_lookup_other by discriminate.
    cbn [is_nil]. rewrite Hbusy. cbn [andb]. unfold ret at 1.
    cbv beta iota. cbn [is_nil]. rewrite Hhealthy. unfold ret at 1.
    rewrite Herr, Hsig. cbn [negb]. cbv zeta. unfold ret at 1.
    cbn [fatal]. rewrite Sim_read_ok. cbv beta iota. cbn [is_nil negb].
    rewrite (Sim_lookup_other 4 17) by discriminate. rewrite Sim_lookup_same.
    rewrite Hc. cbn [negb]. rewrite Sim_read_ok. cbv beta iota.
    cbn [is_nil negb].
    rewrite (Sim_lookup_other 69 17), (Sim_lookup_other 69 4) by discriminate.
    rewrite Sim_lookup_same, Hb.
    rewrite Sim_read_ok. cbv beta iota zeta. cbn [is_nil negb].
    rewrite !Sim_lookup_other by discriminate.
    unfold ret. rewrite velocity_no_wrap.
    + reflexivity.
    + apply byte_range.
    + unfold minIntervalValue, maxIntervalValue in Hr. lia.
Qed.

Lemma window_sets_velocity_scale_witness :
  exists st1 st2,
    SetDistanceAndVelocityMode Sim.quick (10 * Millisecond)
      (Sim.boot [(0x01, 0x20); (0x09, 0xfe)] [] []) = Some (None, st1) /\
    ReadVelocity 1 Sim.quick st1
    = Some ((Z.quot (signed8 (byte (Sim.lookup 0x09 [(0x01, 0x20); (0x09, 0xfe)]))
                     * translatedInterval (10 * Millisecond)) 20, None), st2).
Proof.
  apply (window_sets_velocity_scale Sim.quick 1 [(0x01, 0x20); (0x09, 0xfe)]
           (10 * Millisecond)).
  - lia.
  - vm_compute. discriminate.
  - vm_compute. split; discriminate.
  - reflexivity.
  - vm_compute. discriminate.
  - reflexivity.
  - reflexivity.
Defined.

Lemma Sim_read_word_ok (addr reg : Z) (r : list (Z * Z)) (c : Z) (l : list Event) :
  bus_ReadWordFromReg addr reg
    {| world := {| Sim.regs := r; Sim.script := []; Sim.broken := [];
                   Sim.clock := c |};
       log := l |}
  = Some ((uint16 (Sim.lookup reg r), None),
          {| world := {| Sim.regs := r; Sim.script := []; Sim.broken := [];
                         Sim.clock := c + Sim.transfer_time |};
             log := l ++ [EvReadWord addr reg (uint16 (Sim.lookup reg r)) None] |}).
Proof.
  unfold bus_ReadWordFromReg. cbn [world log ReadWordFromReg Sim.Device_World].
  unfold Sim.read. cbn [Sim.script]. destruct (reg =? 1); reflexivity.
Qed.

(** On a register file whose status shows the sensor ready and healthy,
    GetDistance succeeds at its first attempt with exactly five transfers:
    count 0, a status read, the acquire command 0x04, a second status read
    and the read of the distance register, whose content it returns with a
    nil error. *)
Theorem GetDistance_first_attempt
  (ls : Lidar) (fuel : nat) (regs : list (Z * Z)) :
  (0 < fuel)%nat ->
  Z.land (byte (Sim.lookup 0x01 regs)) Busy = 0 ->
  Z.land (byte (Sim.lookup 0x01 regs)) Healthy <> 0 ->
  Z.land (byte (Sim.lookup 0x01 regs)) ErrorDetected = 0 ->
  Z.land (byte (Sim.lookup 0x01 regs)) SignalNotDetected = 0 ->
  exists st',
    GetDistance fuel ls (Sim.boot regs [] [])
    = Some ((uint16 (Sim.lookup 0x8f regs), None), st') /\
    log st' =
      [EvWriteByte (address ls) 0x11 0 None;
       EvReadByte (address ls) 0x01 (byte (Sim.lookup 0x01 regs)) None;
       EvWriteByte (address ls) 0x00 0x04 None;
       EvReadByte (address ls) 0x01 (byte (Sim.lookup 0x01 regs)) None;
       EvReadWord (address ls) 0x8f (uint16 (Sim.lookup 0x8f regs)) None].
Proof.
  intros Hf Hbusy Hhealthy Herr Hsig.
  destruct fuel as [|fuel]; [lia|].
  apply Z.eqb_eq in Hbusy, Herr, Hsig. apply Z.eqb_neq in Hhealthy.
  eexists. split.
  - unfold GetDistance, setAcquisitionCount, bind, time_Now, Sim.boot.
    rewrite Sim_write_ok. cbn [is_nil negb GetDistance_loop].
    unfold GetDistance_attempt, Acquire, waitReadyForCommand, waitReadyStatus,
      bind, time_Now.
    cbn [waitReadyStatus_loop]. unfold GetStatus, bind.
    rewrite Sim_read_ok. cbv beta iota.
    rewrite !Sim_lookup_other by discriminate.
    cbn [is_nil]. rewrite Hbusy. cbn [andb]. unfold ret at 1 2.
    cbv beta iota zeta. cbn [is_nil negb]. rewrite Sim_write_ok.
    cbn [is_nil].
    unfold ReadDistance, waitAcquisitionReady, waitReadyStatus, bind, time_Now.
    cbn [waitReadyStatus_loop]. unfold GetStatus, bind.
    rewrite Sim_read_ok. cbv beta iota.
    rewrite !Sim_lookup_other by discriminate.
    cbn [is_nil]. rewrite Hbusy. cbn [andb]. unfold ret at 1.
    cbv beta iota. cbn [is_nil]. rewrite Hhealthy. unfold ret at 1.
    rewrite Herr, Hsig. cbn [negb]. cbv zeta. unfold ret at 1.
    cbn [fatal]. rewrite Sim_read_word_ok. cbv beta iota. cbn [is_nil negb].
    rewrite !Sim_lookup_other by discriminate.
    unfold ret at 1. cbv beta iota. cbn [is_nil]. unfold ret. reflexivity.
  - reflexivity.
Qed.

Lemma GetDistance_first_attempt_witness :
  exists st',
    GetDistance 1 Sim.quick (Sim.boot [(0x01, 0x20); (0x8f, 321)] [] [])
    = Some ((uint16 (Sim.lookup 0x8f [(0x01, 0x20); (0x8f, 321)]), None), st') /\
    log st' =
      [EvWriteByte (address Sim.quick) 0x11 0 None;
       EvReadByte (address Sim.quick) 0x01
         (byte (Sim.lookup 0x01 [(0x01, 0x20); (0x8f, 321)])) None;
       EvWriteByte (address Sim.quick) 0x00 0x04 None;
       EvReadByte (address Sim.quick) 0x01
         (byte (Sim.lookup 0x01 [(0x01, 0x20); (0x8f, 321)])) None;
       EvReadWord (address Sim.quick) 0x8f
         (uint16 (Sim.lookup 0x8f [(0x01, 0x20); (0x8f, 321)])) None].
Proof.
  apply (GetDistance_first_attempt Sim.quick 1 [(0x01, 0x20); (0x8f, 321)]).
  - lia.
  - reflexivity.
  - vm_compute. discriminate.
  - reflexivity.
  - reflexivity.
Defined.

(** ** The range guard and int64 overflow *)

(** C2: the claim fails on the code at the duration minDuration + 10 ms.
    Its translated value d_ns * 2 / 1_000_000 is -18446744073689, far below
    minIntervalValue, so the claim asks for a range error and no write.
    But the int64 product d_ns * 2 wraps, the code's guard sees 20, and on a
    register file the call returns nil after writing 20 to the interval
    register (0x45) and 0x20 to the control register. *)
Theorem setAcquisitionInterval_overflow_accepted :
  minDuration + 10 * Millisecond <> DefaultAcquisitionInterval /\
  Z.quot ((minDuration + 10 * Millisecond) * 2) 1000000 = -18446744073689 /\
  Z.quot ((minDuration + 10 * Millisecond) * 2) 1000000 < minIntervalValue /\
  translatedInterval (minDuration + 10 * Millisecond) = 20 /\
  exists st',
    setAcquisitionInterval (NewLidar DefaultAddress)
      (minDuration + 10 * Millisecond) false (Sim.boot [] [] [])
    = Some (None, st') /\
    log st' = [EvReadByte DefaultAddress modeControlRegister 0 None;
               EvWriteByte DefaultAddress 0x45 20 None;
               EvWriteByte DefaultAddress modeControlRegister 0x20 None] /\
    writes (log st') <> writes (log (Sim.boot [] [] [])).
Proof.
  split; [vm_compute; discriminate|].
  split; [reflexivity|]. split; [reflexivity|]. split; [reflexivity|].
  eexists. split; [vm_compute; reflexivity|].
  split; [reflexivity|]. vm_compute. discriminate.
Qed.

Section ExactGuard.

Context {W : Type} `{World W}.

(** Away from the overflow the guard does what it is there for: when
    doubling the duration fits int64 and the exact truncated quotient
    d_ns * 2 / 1_000_000 lies outside [minIntervalValue, maxIntervalValue],
    setAcquisitionInterval performs the control-register read and nothing
    else, writes no register, and returns the range error (the read's own
    error if that read failed). *)
Theorem setAcquisitionInterval_rejects_exact
  (ls : Lidar) (interval : Z) (velocity : bool) (st : St W) :
  interval <> DefaultAcquisitionInterval ->
  minDuration <= interval * 2 <= maxDuration ->
  Z.quot (interval * 2) 1000000 < minIntervalValue
  \/ Z.quot (interval * 2) 1000000 > maxIntervalValue ->
  exists control e st',
    setAcquisitionInterval ls interval velocity st
    = Some (match e with
            | None => Some (IntervalError interval)
            | Some _ => e
            end, st') /\
    log st' = log st ++ [EvReadByte (address ls) modeControlRegister control e] /\
    writes (log st') = writes (log st).
Proof.
  intros Hd Ho Hr.
  apply setAcquisitionInterval_out_of_range; [exact Hd|].
  rewrite (translatedInterval_exact interval Ho). exact Hr.
Qed.

End ExactGuard.

Lemma setAcquisitionInterval_rejects_exact_witness :
  exists control e st',
    setAcquisitionInterval Sim.quick (200 * Millisecond) false (Sim.boot [] [] [])
    = Some (match e with
            | None => Some (IntervalError (200 * Millisecond))
            | Some _ => e
            end, st') /\
    log st' = log (Sim.boot [] [] [])
              ++ [EvReadByte (address Sim.quick) modeControlRegister control e] /\
    writes (log st') = writes (log (Sim.boot [] [] [])).
Proof.
  apply (setAcquisitionInterval_rejects_exact Sim.quick (200 * Millisecond) false).
  - vm_compute. discriminate.
  - vm_compute. split; discriminate.
  - right. vm_compute. reflexivity.
Defined.
